(** * The droppable view-state selector of react-beautiful-dnd

    A shallow embedding of [src/view/droppable/connected-droppable.js]:
    the constants [idle] and [idleWithoutAnimation], the helpers
    [isMatchingType], [shouldCollapseHomeAfterDrag] and [getDraggable], and
    the selector built by [makeMapStateToProps] with its two [memoizeOne]
    caches.

    JavaScript objects have an identity.  The selector's results are compared
    by the caller with [===], and [memoizeOne] compares its arguments with
    [===], so the embedding keeps addresses: a placeholder is the address of
    the placeholder object, and a result is a record of props together with
    the address it was allocated at. *)

From stdpp Require Import base strings gmap.

Open Scope string_scope.

(** ** Data model *)

(** [Id], [DroppableId], [DraggableId] and [TypeId] are all [string] in the
    code's type declarations. *)
Abbreviation Id := string (only parsing).
Abbreviation DroppableId := string (only parsing).
Abbreviation DraggableId := string (only parsing).
Abbreviation TypeId := string (only parsing).

(** The address of a heap object; [===] on objects compares addresses. *)
Abbreviation Address := nat (only parsing).

(** Modelled from the spec: the draggable descriptor of the absent
    [types.js], "{ id: DraggableId, originRegionId: RegionId }"; the field
    the selector reads for the origin region is [descriptor.droppableId]. *)
Record DraggableDescriptor := mkDraggableDescriptor {
  dg_id : DraggableId;
  dg_droppableId : DroppableId;
}.

(** Modelled from the spec: the region half of a critical reference,
    "{ id: RegionId, type: TypeTag }". *)
Record DroppableDescriptor := mkDroppableDescriptor {
  dp_id : DroppableId;
  dp_type : TypeId;
}.

(** Modelled from the spec: the critical reference, read by the selector as
    [critical.draggable] and [critical.droppable]. *)
Record Critical := mkCritical {
  draggable : DraggableDescriptor;
  droppable : DroppableDescriptor;
}.

(** Modelled from the spec: the placeholder is an opaque geometry record
    owned by the dimension catalog.  The selector never reads its fields and
    only passes the object along, so a placeholder is its address. *)
Abbreviation Placeholder := nat (only parsing).

(** Modelled from the spec: a catalog entry, read by the selector as
    [draggable.descriptor] and [draggable.placeholder]. *)
Record DraggableDimension := mkDraggableDimension {
  descriptor : DraggableDescriptor;
  placeholder : Placeholder;
}.

(** Modelled from the spec: the dimension catalog; [draggables] is a
    JavaScript object used as a map from draggable ids to entries. *)
Record DimensionMap := mkDimensionMap {
  draggables : gmap string DraggableDimension;
}.

(** Modelled from the spec: the destination of a reorder. *)
Record DraggableLocation := mkDraggableLocation {
  loc_droppableId : DroppableId;
  loc_index : nat;
}.

(** Modelled from the spec: the target of a combine. *)
Record Combine := mkCombine {
  cmb_draggableId : DraggableId;
  cmb_droppableId : DroppableId;
}.

(** Modelled from the spec: the drag impact, "current hover target and
    whether a merge (combine) is in effect".  Both fields are nullable; the
    selector tests [impact.merge] for truthiness, and an object is always
    truthy, so [merge] is truthy exactly when it is [Some]. *)
Record DragImpact := mkDragImpact {
  destination : option DraggableLocation;
  merge : option Combine;
}.

(** Modelled from the spec: the completed drag,
    "{ critical: CriticalReference, impact: DragImpact }". *)
Record CompletedDrag := mkCompletedDrag {
  c_critical : Critical;
  c_impact : DragImpact;
}.

(** The session state as the selector sees it: a JavaScript object of which
    it reads six properties.  [isDragging] is the truthiness of
    [state.isDragging] (absent on the idle and drop-animating members of the
    union).  [completed] is nullable.  [critical], [dimensions] and [impact]
    are only read on the branches where the union carries them; on the other
    members their value here is never looked at. *)
Record State := mkState {
  phase : string;
  isDragging : bool;
  critical : Critical;
  dimensions : DimensionMap;
  impact : DragImpact;
  completed : option CompletedDrag;
}.

(** The two own props the selector reads: [ownProps.droppableId] and
    [ownProps.type]. *)
Record OwnProps := mkOwnProps {
  own_droppableId : DroppableId;
  own_type : TypeId;
}.

(** The fields of a [MapProps] object. *)
Record MapProps := mkMapProps {
  isDraggingOver : bool;
  draggingOverWith : option DraggableId;
  draggingFromThisWith : option DraggableId;
  mp_placeholder : option Placeholder;
  shouldAnimatePlaceholder : bool;
}.

(** A [MapProps] object on the heap: its address and its fields.  The code
    never mutates a [MapProps] object after building it. *)
Record Obj := mkObj {
  addr : Address;
  props : MapProps;
}.

Global Instance DraggableDescriptor_eq_dec : EqDecision DraggableDescriptor.
Proof. solve_decision. Defined.
Global Instance MapProps_eq_dec : EqDecision MapProps.
Proof. solve_decision. Defined.
Global Instance Obj_eq_dec : EqDecision Obj.
Proof. solve_decision. Defined.

(** ** Module-level constants *)

(** [const idle: MapProps = {...}], allocated once when the module loads. *)
Definition idle : Obj :=
  {| addr := 0;
     props := {| isDraggingOver := false;
                 draggingOverWith := None;
                 draggingFromThisWith := None;
                 mp_placeholder := None;
                 shouldAnimatePlaceholder := true |} |}.

(** [const idleWithoutAnimation = { ...idle, shouldAnimatePlaceholder: false }]:
    a second object, with [idle]'s fields but for the last. *)
Definition idleWithoutAnimation : Obj :=
  {| addr := 1;
     props := {| isDraggingOver := isDraggingOver (props idle);
                 draggingOverWith := draggingOverWith (props idle);
                 draggingFromThisWith := draggingFromThisWith (props idle);
                 mp_placeholder := mp_placeholder (props idle);
                 shouldAnimatePlaceholder := false |} |}.

(** The first address the allocator hands out after the two constants. *)
Definition firstFreeAddress : Address := 2.

(** ** Pure helpers *)

(** Modelled from the spec: [whatIsDraggedOver] of the absent
    [state/droppable/what-is-dragged-over.js], the target resolver: "reads
    whichever field of the impact record names the currently hovered region
    (destination of a reorder, or combine target)", and "returns null when
    nothing is currently targeted". *)
Definition whatIsDraggedOver (impact : DragImpact) : option DroppableId :=
  match destination impact with
  | Some d => Some (loc_droppableId d)
  | None =>
      match merge impact with
      | Some c => Some (cmb_droppableId c)
      | None => None
      end
  end.

(** [Boolean(x)] for a nullable string: [null] and the empty string are
    falsy, every other string is truthy. *)
Definition Boolean_id (x : option Id) : bool :=
  match x with
  | Some s => negb (bool_decide (s = ""))
  | None => false
  end.

(** Truthiness of a nullable object. *)
Definition Boolean_obj {A : Type} (x : option A) : bool :=
  match x with
  | Some _ => true
  | None => false
  end.

(** [x === id] for a nullable string [x] and a string [id]. *)
Definition strictEq (x : option Id) (id : Id) : bool :=
  bool_decide (x = Some id).

Definition isMatchingType (type : TypeId) (critical : Critical) : bool :=
  bool_decide (type = dp_type (droppable critical)).

Definition shouldCollapseHomeAfterDrag
    (id : DroppableId) (completed : CompletedDrag) : bool :=
  let wasOver := whatIsDraggedOver (c_impact completed) in
  if strictEq wasOver id && Boolean_obj (merge (c_impact completed)) then true
  else if Boolean_id wasOver && negb (strictEq wasOver id) then true
  else false.

(** [dimensions.draggables[critical.draggable.id]]: [undefined] ([None])
    when the catalog has no such entry.  (For a key found on
    [Object.prototype] the lookup yields an object without a [descriptor],
    and the first use of the result fails the same way.) *)
Definition getDraggable
    (critical : Critical) (dimensions : DimensionMap)
    : option DraggableDimension :=
  draggables dimensions !! dg_id (draggable critical).

(** ** Effects: exceptions and the selector's private caches *)

(** How a call completes: it returns a value or throws. *)
Inductive Exn := TypeError.

Inductive Completion (A : Type) :=
| Returned (a : A)
| Thrown (e : Exn).
Arguments Returned {A} a.
Arguments Thrown {A} e.

(** The arguments of [getDraggingOverMapProps]: [draggingOverWith],
    [draggingFromThisWith], [placeholder], [shouldAnimatePlaceholder]. *)
Definition OverArgs : Type :=
  DraggableId * option DraggableId * Placeholder * bool.

(** The arguments of [getHomeNotDraggedOverMapProps]:
    [draggingFromThisWith], [placeholder]. *)
Definition HomeArgs : Type := DraggableId * Placeholder.

(** What one call of [makeMapStateToProps] owns: the last arguments and the
    last result of each of its two memoized constructors, and the address
    the next [MapProps] object it builds will get. *)
Record Instance := mkInstance {
  nextAddr : Address;
  draggingOverCache : option (OverArgs * Obj);
  homeNotDraggedOverCache : option (HomeArgs * Obj);
}.

(** A computation inside one selector instance. *)
Definition M (A : Type) : Type := Instance -> Completion A * Instance.

Definition ret {A : Type} (a : A) : M A := fun σ => (Returned a, σ).

Definition throw {A : Type} (e : Exn) : M A := fun σ => (Thrown e, σ).

Definition bind {A B : Type} (m : M A) (k : A -> M B) : M B :=
  fun σ =>
    match m σ with
    | (Returned a, σ') => k a σ'
    | (Thrown e, σ') => (Thrown e, σ')
    end.

Notation "'let!' x ':=' m 'in' k" := (bind m (fun x => k))
  (at level 10, x name, m at level 100, k at level 200, only parsing).

(** Reading a property of [x]: a [TypeError] when [x] is [undefined] or
    [null]. *)
Definition deref {A : Type} (x : option A) : M A :=
  match x with
  | Some a => ret a
  | None => throw TypeError
  end.

Section memoizeOne.
Context {Args : Type}.
Variable areInputsEqual : Args -> Args -> bool.
Variable resultFn : Args -> MapProps.

(** Modelled from the spec: [memoizeOne] of the library memoize-one, "a
    single-slot cache keyed on [the] exact input tuple (by identity/value
    equality of each argument)".  A call whose arguments are [===] to the
    last call's, one by one, returns the last result; any other call runs
    the function, allocates its result and overwrites the slot. *)
Definition memoizeOne
    (slot : option (Args * Obj)) (next : Address) (newArgs : Args)
    : Obj * option (Args * Obj) * Address :=
  let fresh := {| addr := next; props := resultFn newArgs |} in
  match slot with
  | Some (lastArgs, lastResult) =>
      if areInputsEqual newArgs lastArgs
      then (lastResult, slot, next)
      else (fresh, Some (newArgs, fresh), S next)
  | None => (fresh, Some (newArgs, fresh), S next)
  end.
End memoizeOne.

(** [===] on each argument: strings, nullable strings and booleans by
    value, the placeholder object by address. *)
Definition overArgsEqual (a b : OverArgs) : bool :=
  let '(w1, f1, p1, s1) := a in
  let '(w2, f2, p2, s2) := b in
  bool_decide (w1 = w2) && bool_decide (f1 = f2)
  && bool_decide (p1 = p2) && bool_decide (s1 = s2).

Definition homeArgsEqual (a b : HomeArgs) : bool :=
  let '(f1, p1) := a in
  let '(f2, p2) := b in
  bool_decide (f1 = f2) && bool_decide (p1 = p2).

(** The function wrapped by the first [memoizeOne]. *)
Definition draggingOverProps (a : OverArgs) : MapProps :=
  let '(draggingOverWith, draggingFromThisWith, placeholder,
        shouldAnimatePlaceholder) := a in
  {| isDraggingOver := true;
     draggingFromThisWith := draggingFromThisWith;
     draggingOverWith := Some draggingOverWith;
     mp_placeholder := Some placeholder;
     shouldAnimatePlaceholder := shouldAnimatePlaceholder |}.

(** The function wrapped by the second [memoizeOne]. *)
Definition homeNotDraggedOverProps (a : HomeArgs) : MapProps :=
  let '(draggingFromThisWith, placeholder) := a in
  {| isDraggingOver := false;
     draggingFromThisWith := Some draggingFromThisWith;
     draggingOverWith := None;
     mp_placeholder := Some placeholder;
     shouldAnimatePlaceholder := false |}.

Definition getDraggingOverMapProps (a : OverArgs) : M Obj :=
  fun σ =>
    let '(o, slot, next) :=
      memoizeOne overArgsEqual draggingOverProps
        (draggingOverCache σ) (nextAddr σ) a in
    (Returned o,
     {| nextAddr := next;
        draggingOverCache := slot;
        homeNotDraggedOverCache := homeNotDraggedOverCache σ |}).

Definition getHomeNotDraggedOverMapProps (a : HomeArgs) : M Obj :=
  fun σ =>
    let '(o, slot, next) :=
      memoizeOne homeArgsEqual homeNotDraggedOverProps
        (homeNotDraggedOverCache σ) (nextAddr σ) a in
    (Returned o,
     {| nextAddr := next;
        draggingOverCache := draggingOverCache σ;
        homeNotDraggedOverCache := slot |}).

(** ** The selector *)

(** [getMapProps]; [draggable] is what [getDraggable] returned, possibly
    [undefined], and is first dereferenced when [isHome] is computed. *)
Definition getMapProps
    (id : DroppableId) (draggable : option DraggableDimension)
    (impact : DragImpact) : M Obj :=
  let isOver := strictEq (whatIsDraggedOver impact) id in
  let! draggable := deref draggable in
  let isHome := bool_decide (dg_droppableId (descriptor draggable) = id) in
  if isOver then
    let draggingFromThisWith :=
      if isHome then Some (dg_id (descriptor draggable)) else None in
    let shouldAnimatePlaceholder := negb isHome in
    getDraggingOverMapProps
      (dg_id (descriptor draggable), draggingFromThisWith,
       placeholder draggable, shouldAnimatePlaceholder)
  else if negb isHome then ret idle
  else
    getHomeNotDraggedOverMapProps
      (dg_id (descriptor draggable), placeholder draggable).

Definition selector (state : State) (ownProps : OwnProps) : M Obj :=
  let id := own_droppableId ownProps in
  let type := own_type ownProps in
  if isDragging state then
    let critical := critical state in
    if negb (isMatchingType type critical) then ret idle
    else
      getMapProps id (getDraggable critical (dimensions state)) (impact state)
  else if bool_decide (phase state = "DROP_ANIMATING") then
    let! completed := deref (completed state) in
    if negb (isMatchingType type (c_critical completed)) then ret idle
    else
      getMapProps id
        (getDraggable (c_critical completed) (dimensions state))
        (c_impact completed)
  else
    (* [state.phase === 'IDLE' && state.completed] *)
    match (if bool_decide (phase state = "IDLE")
           then completed state else None) with
    | Some completed =>
        if negb (isMatchingType type (c_critical completed)) then ret idle
        else
          let isHome :=
            bool_decide (dp_id (droppable (c_critical completed)) = id) in
          if negb isHome then ret idle
          else
            ret (if shouldCollapseHomeAfterDrag id completed
                 then idle else idleWithoutAnimation)
    | None => ret idle
    end.

(** The fields [getMapProps] computes for a catalog entry, without the
    caches. *)
Definition mapPropsOf
    (id : DroppableId) (dr : DraggableDimension) (i : DragImpact) : MapProps :=
  let isHome := bool_decide (dg_droppableId (descriptor dr) = id) in
  if strictEq (whatIsDraggedOver i) id then
    draggingOverProps
      (dg_id (descriptor dr),
       if isHome then Some (dg_id (descriptor dr)) else None,
       placeholder dr, negb isHome)
  else if negb isHome then props idle
  else homeNotDraggedOverProps (dg_id (descriptor dr), placeholder dr).

(** [makeMapStateToProps()]: a selector with two empty caches. *)
Definition makeMapStateToProps : Instance :=
  {| nextAddr := firstFreeAddress;
     draggingOverCache := None;
     homeNotDraggedOverCache := None |}.

(** ** Session shapes

    The members of the session-state union the claims speak of, as
    conditions on the properties the selector reads. *)

(** A session in phase DRAGGING (the live critical reference and impact) or
    in phase DROP_ANIMATING (those of the completed record): [active s c i]
    says which critical reference and impact the phase supplies. *)
Inductive active : State -> Critical -> DragImpact -> Prop :=
| active_dragging s :
    phase s = "DRAGGING" -> isDragging s = true ->
    active s (critical s) (impact s)
| active_drop_animating s cd :
    phase s = "DROP_ANIMATING" -> isDragging s = false ->
    completed s = Some cd ->
    active s (c_critical cd) (c_impact cd).

(** A session in phase IDLE that still carries a completed record. *)
Definition idleWithCompleted (s : State) (cd : CompletedDrag) : Prop :=
  phase s = "IDLE" /\ isDragging s = false /\ completed s = Some cd.

(** The critical reference of a session in one of the three phases that
    have one. *)
Inductive carriesCritical : State -> Critical -> Prop :=
| carries_active s c i : active s c i -> carriesCritical s c
| carries_idle s cd : idleWithCompleted s cd -> carriesCritical s (c_critical cd).

(** Modelled from the spec: the phase tags of the session-state union,
    "IDLE", "DRAGGING" and "DROP_ANIMATING". *)
Definition recognisedPhases : list string :=
  ["IDLE"; "DRAGGING"; "DROP_ANIMATING"].

(** ** Cache states of a running selector *)

(** The instance states a selector can be in: the one
    [makeMapStateToProps] returns, and those left by a call. *)
Inductive reachable : Instance -> Prop :=
| reachable_fresh : reachable makeMapStateToProps
| reachable_call σ state ownProps :
    reachable σ -> reachable (selector state ownProps σ).2.

(** A slot is coherent when its result is what the wrapped function gives
    on its arguments, at an address already handed out. *)
Definition slot_ok {Args : Type} (fn : Args -> MapProps) (next : Address)
    (slot : option (Args * Obj)) : Prop :=
  match slot with
  | Some (a, o) => props o = fn a /\ firstFreeAddress <= addr o < next
  | None => True
  end.

Definition coherent (σ : Instance) : Prop :=
  firstFreeAddress <= nextAddr σ
  /\ slot_ok draggingOverProps (nextAddr σ) (draggingOverCache σ)
  /\ slot_ok homeNotDraggedOverProps (nextAddr σ) (homeNotDraggedOverCache σ).

(** The two cached objects, when both slots are filled, are two objects. *)
Definition distinctSlots (σ : Instance) : Prop :=
  match draggingOverCache σ, homeNotDraggedOverCache σ with
  | Some (_, o1), Some (_, o2) => addr o1 <> addr o2
  | _, _ => True
  end.

(** Coherent slots at addresses of their own. *)
Definition wellAllocated (σ : Instance) : Prop :=
  coherent σ /\ distinctSlots σ.

(** ** What a call consults

    The critical reference and the impact a call of the selector reads:
    the live ones when [state.isDragging] is truthy, those of the completed
    record when the phase tag is DROP_ANIMATING, none otherwise. *)
Definition consulted (s : State) : option (Critical * DragImpact) :=
  if isDragging s then Some (critical s, impact s)
  else if bool_decide (phase s = "DROP_ANIMATING") then
    match completed s with
    | Some cd => Some (c_critical cd, c_impact cd)
    | None => None
    end
  else None.

(** A catalog that stores every entry under the id of its descriptor. *)
Definition keyedById (d : DimensionMap) : Prop :=
  forall (k : string) (dr : DraggableDimension),
    draggables d !! k = Some dr -> dg_id (descriptor dr) = k.

(** ** Structural identity of inputs

    Two states are structurally identical when they agree on every value
    and their placeholders, possibly different objects, have the same
    content.  A heap gives the content of a placeholder object. *)

(** Modelled from the spec: the content of a placeholder, "dimensions to
    reserve in layout". *)
Record PlaceholderBox := mkPlaceholderBox {
  box_width : nat;
  box_height : nat;
}.

Definition Heap : Type := gmap nat PlaceholderBox.

Definition sameDimension (h : Heap) (a b : DraggableDimension) : Prop :=
  descriptor a = descriptor b
  /\ is_Some (h !! placeholder a)
  /\ h !! placeholder a = h !! placeholder b.

Definition sameCatalog (h : Heap) (a b : DimensionMap) : Prop :=
  forall k : string,
    option_Forall2 (sameDimension h) (draggables a !! k) (draggables b !! k).

Definition structurallyIdentical (h : Heap) (a b : State) : Prop :=
  phase a = phase b /\ isDragging a = isDragging b
  /\ critical a = critical b /\ sameCatalog h (dimensions a) (dimensions b)
  /\ impact a = impact b /\ completed a = completed b.

(** [state] with another phase tag. *)
Definition withPhase (p : string) (s : State) : State :=
  {| phase := p;
     isDragging := isDragging s;
     critical := critical s;
     dimensions := dimensions s;
     impact := impact s;
     completed := completed s |}.

(** ** Sample sessions

    One draggable, "item-1", whose origin is the region "A"; regions "A"
    and "B" of the default type. *)
Module Sample.

Definition item1 : DraggableDescriptor :=
  {| dg_id := "item-1"; dg_droppableId := "A" |}.

Definition criticalA : Critical :=
  {| draggable := item1;
     droppable := {| dp_id := "A"; dp_type := "DEFAULT" |} |}.

(** A critical reference to a draggable the catalog does not have. *)
Definition criticalMissing : Critical :=
  {| draggable := {| dg_id := "item-9"; dg_droppableId := "A" |};
     droppable := {| dp_id := "A"; dp_type := "DEFAULT" |} |}.

(** The catalog, with the placeholder object of "item-1" at address [p]. *)
Definition catalog (p : nat) : DimensionMap :=
  {| draggables :=
       {[ "item-1" := {| descriptor := item1; placeholder := p |} ]} |}.

Definition over (id : string) : DragImpact :=
  {| destination := Some {| loc_droppableId := id; loc_index := 0 |};
     merge := None |}.

Definition mergingIn (id : string) : DragImpact :=
  {| destination := None;
     merge := Some {| cmb_draggableId := "item-2";
                      cmb_droppableId := id |} |}.

Definition overNothing : DragImpact :=
  {| destination := None; merge := None |}.

Definition dragging (c : Critical) (p : nat) (i : DragImpact) : State :=
  {| phase := "DRAGGING"; isDragging := true; critical := c;
     dimensions := catalog p; impact := i; completed := None |}.

(** The members without [critical] and [impact] get values here that the
    selector does not read. *)
Definition dropAnimating (p : nat) (i : DragImpact) : State :=
  {| phase := "DROP_ANIMATING"; isDragging := false;
     critical := criticalMissing; dimensions := catalog p;
     impact := overNothing;
     completed := Some {| c_critical := criticalA; c_impact := i |} |}.

Definition idleAfter (i : DragImpact) : State :=
  {| phase := "IDLE"; isDragging := false;
     critical := criticalMissing; dimensions := catalog 10;
     impact := overNothing;
     completed := Some {| c_critical := criticalA; c_impact := i |} |}.

Definition regionA : OwnProps :=
  {| own_droppableId := "A"; own_type := "DEFAULT" |}.

Definition regionB : OwnProps :=
  {| own_droppableId := "B"; own_type := "DEFAULT" |}.

(** A region of another type. *)
Definition regionOther : OwnProps :=
  {| own_droppableId := "A"; own_type := "OTHER" |}.

(** Two placeholder objects with the same content. *)
Definition heap : Heap :=
  {[ 10 := {| box_width := 100; box_height := 40 |};
     11 := {| box_width := 100; box_height := 40 |} ]}.

End Sample.

(** * Properties *)

(** ** Strict equality and truthiness *)

Lemma strictEq_true x id : strictEq x id = true <-> x = Some id.
Proof. unfold strictEq. by rewrite bool_decide_eq_true. Qed.

Lemma strictEq_false x id : strictEq x id = false <-> x <> Some id.
Proof. unfold strictEq. by rewrite bool_decide_eq_false. Qed.

Lemma Boolean_id_true x :
  Boolean_id x = true <-> exists t, x = Some t /\ t <> "".
Proof.
  destruct x as [t|]; simpl.
  - rewrite negb_true_iff, bool_decide_eq_false. split.
    + intros Hne. by exists t.
    + by intros (t' & [= ->] & Hne).
  - split; [done|]. by intros (t & Ht & _).
Qed.

Lemma Boolean_obj_true {A} (x : option A) : Boolean_obj x = true <-> x <> None.
Proof. destruct x; simpl; naive_solver. Qed.

Lemma isMatchingType_true type c :
  isMatchingType type c = true <-> type = dp_type (droppable c).
Proof. unfold isMatchingType. by rewrite bool_decide_eq_true. Qed.

(** ** The collapse decision *)

(** The decision, as a proposition on the resolved target and the merge. *)
Lemma shouldCollapseHomeAfterDrag_true id cd :
  shouldCollapseHomeAfterDrag id cd = true <->
  (whatIsDraggedOver (c_impact cd) = Some id /\ merge (c_impact cd) <> None)
  \/ (exists t, whatIsDraggedOver (c_impact cd) = Some t /\ t <> "" /\ t <> id).
Proof.
  unfold shouldCollapseHomeAfterDrag.
  destruct (strictEq _ id) eqn:Hover; simpl.
  - apply strictEq_true in Hover. rewrite Hover.
    destruct (Boolean_obj _) eqn:Hm.
    + apply Boolean_obj_true in Hm. naive_solver.
    + rewrite andb_false_r. split; [done|].
      intros [[_ Hm']|(t & ? & _ & ?)]; [|naive_solver].
      apply Boolean_obj_true in Hm'. congruence.
  - apply strictEq_false in Hover. rewrite andb_true_r.
    destruct (Boolean_id _) eqn:Hb.
    + apply Boolean_id_true in Hb as (t & Ht & Hne).
      split; [|done]. intros _. right. exists t. naive_solver.
    + split; [done|]. intros [[? _]|(t & Ht & Hne & _)]; [done|].
      assert (Boolean_id (whatIsDraggedOver (c_impact cd)) = true)
        by (apply Boolean_id_true; eauto).
      congruence.
Qed.

(** ** Running the selector: the branches that do not touch the caches *)

Lemma selector_dragging s own σ :
  isDragging s = true ->
  selector s own σ =
    (if negb (isMatchingType (own_type own) (critical s)) then ret idle
     else getMapProps (own_droppableId own)
            (getDraggable (critical s) (dimensions s)) (impact s)) σ.
Proof. intros H. unfold selector. by rewrite H. Qed.

Lemma selector_drop_animating s own cd σ :
  isDragging s = false -> phase s = "DROP_ANIMATING" ->
  completed s = Some cd ->
  selector s own σ =
    (if negb (isMatchingType (own_type own) (c_critical cd)) then ret idle
     else getMapProps (own_droppableId own)
            (getDraggable (c_critical cd) (dimensions s)) (c_impact cd)) σ.
Proof. intros H1 H2 H3. unfold selector. by rewrite H1, H2, H3. Qed.

(** In both active phases the selector runs the same case analysis, on the
    critical reference and impact the phase supplies. *)
Lemma selector_active s own c i σ :
  active s c i ->
  selector s own σ =
    (if negb (isMatchingType (own_type own) c) then ret idle
     else getMapProps (own_droppableId own)
            (getDraggable c (dimensions s)) i) σ.
Proof.
  destruct 1 as [s Hp Hd | s cd Hp Hd Hc].
  - by apply selector_dragging.
  - by apply selector_drop_animating.
Qed.

Lemma selector_idle_completed s own cd σ :
  idleWithCompleted s cd ->
  selector s own σ =
    (Returned
       (if negb (isMatchingType (own_type own) (c_critical cd)) then idle
        else if negb (bool_decide
                        (dp_id (droppable (c_critical cd))
                         = own_droppableId own))
        then idle
        else if shouldCollapseHomeAfterDrag (own_droppableId own) cd
        then idle else idleWithoutAnimation), σ).
Proof.
  intros (Hp & Hd & Hc). unfold selector. rewrite Hd, Hp, Hc. simpl.
  by repeat case_match.
Qed.

Lemma selector_other_phase s own σ :
  isDragging s = false -> phase s <> "DROP_ANIMATING" ->
  phase s <> "IDLE" \/ completed s = None ->
  selector s own σ = (Returned idle, σ).
Proof.
  intros Hd Hp Hi. unfold selector. rewrite Hd.
  rewrite bool_decide_eq_false_2 by done.
  destruct Hi as [Hi | Hi].
  - by rewrite bool_decide_eq_false_2.
  - rewrite Hi. by case_bool_decide.
Qed.

(** ** The memoized constructors *)

Lemma overArgsEqual_true a b : overArgsEqual a b = true <-> a = b.
Proof.
  destruct a as [[[w1 f1] p1] s1], b as [[[w2 f2] p2] s2]. simpl.
  rewrite !andb_true_iff, !bool_decide_eq_true. split.
  - by intros [[[-> ->] ->] ->].
  - by intros [= -> -> -> ->].
Qed.

Lemma homeArgsEqual_true a b : homeArgsEqual a b = true <-> a = b.
Proof.
  destruct a as [f1 p1], b as [f2 p2]. simpl.
  rewrite andb_true_iff, !bool_decide_eq_true. split.
  - by intros [-> ->].
  - by intros [= -> ->].
Qed.

Section memoizeOne_facts.
Context {Args : Type} (areInputsEqual : Args -> Args -> bool).
Context (resultFn : Args -> MapProps).
Hypothesis areInputsEqual_true :
  forall a b, areInputsEqual a b = true <-> a = b.

(** From a coherent slot a call returns the function's value on the new
    arguments, leaves them and the result in the slot, and keeps the slot
    coherent. *)
Lemma memoizeOne_coherent slot next a o slot' next' :
  firstFreeAddress <= next ->
  slot_ok resultFn next slot ->
  memoizeOne areInputsEqual resultFn slot next a = (o, slot', next') ->
  props o = resultFn a /\ slot' = Some (a, o)
  /\ next <= next' /\ slot_ok resultFn next' slot'.
Proof.
  intros Hnext Hslot. unfold memoizeOne.
  destruct slot as [[lastArgs lastResult]|].
  - destruct (areInputsEqual a lastArgs) eqn:Heq.
    + apply areInputsEqual_true in Heq as ->.
      intros [= <- <- <-]. by destruct Hslot.
    + intros [= <- <- <-]. simpl. repeat split; auto with lia.
  - intros [= <- <- <-]. simpl. repeat split; auto with lia.
Qed.

(** A call with the arguments that are in the slot returns the result
    that is in the slot and changes nothing. *)
Lemma memoizeOne_hit next a o :
  memoizeOne areInputsEqual resultFn (Some (a, o)) next a
  = (o, Some (a, o), next).
Proof.
  unfold memoizeOne.
  by rewrite (proj2 (areInputsEqual_true a a) eq_refl).
Qed.

(** A call with other arguments allocates. *)
Lemma memoizeOne_miss next lastArgs lastResult a :
  a <> lastArgs ->
  memoizeOne areInputsEqual resultFn (Some (lastArgs, lastResult)) next a
  = ({| addr := next; props := resultFn a |},
     Some (a, {| addr := next; props := resultFn a |}), S next).
Proof.
  intros Hne. unfold memoizeOne.
  destruct (areInputsEqual a lastArgs) eqn:Heq; [|done].
  by apply areInputsEqual_true in Heq.
Qed.
End memoizeOne_facts.

Lemma slot_ok_mono {Args} (fn : Args -> MapProps) next next' slot :
  next <= next' -> slot_ok fn next slot -> slot_ok fn next' slot.
Proof.
  intros Hle. destruct slot as [[a o]|]; simpl; [|done].
  intros [? ?]. split; [done|lia].
Qed.

Lemma getDraggingOverMapProps_coherent a σ :
  coherent σ ->
  exists o σ',
    getDraggingOverMapProps a σ = (Returned o, σ')
    /\ props o = draggingOverProps a
    /\ draggingOverCache σ' = Some (a, o)
    /\ homeNotDraggedOverCache σ' = homeNotDraggedOverCache σ
    /\ coherent σ'.
Proof.
  intros (Hnext & Hover & Hhome). unfold getDraggingOverMapProps.
  destruct (memoizeOne _ _ _ _ a) as [[o slot'] next'] eqn:Hm.
  eapply memoizeOne_coherent in Hm as (Hp & -> & Hle & Hok);
    [|apply overArgsEqual_true|done|done].
  eexists _, _. split; [done|]. unfold coherent.
  cbn [nextAddr draggingOverCache homeNotDraggedOverCache].
  split; [done|]. split; [done|]. split; [done|].
  split; [lia|]. split; [done|]. by eapply slot_ok_mono.
Qed.

Lemma getHomeNotDraggedOverMapProps_coherent a σ :
  coherent σ ->
  exists o σ',
    getHomeNotDraggedOverMapProps a σ = (Returned o, σ')
    /\ props o = homeNotDraggedOverProps a
    /\ homeNotDraggedOverCache σ' = Some (a, o)
    /\ draggingOverCache σ' = draggingOverCache σ
    /\ coherent σ'.
Proof.
  intros (Hnext & Hover & Hhome). unfold getHomeNotDraggedOverMapProps.
  destruct (memoizeOne _ _ _ _ a) as [[o slot'] next'] eqn:Hm.
  eapply memoizeOne_coherent in Hm as (Hp & -> & Hle & Hok);
    [|apply homeArgsEqual_true|done|done].
  eexists _, _. split; [done|]. unfold coherent.
  cbn [nextAddr draggingOverCache homeNotDraggedOverCache].
  split; [done|]. split; [done|]. split; [done|].
  split; [lia|]. split; [|done]. by eapply slot_ok_mono.
Qed.

(** ** The case analysis of [getMapProps] *)

Lemma getMapProps_undefined id i σ :
  getMapProps id None i σ = (Thrown TypeError, σ).
Proof. reflexivity. Qed.

Lemma getMapProps_coherent id dr i σ :
  coherent σ ->
  exists o σ',
    getMapProps id (Some dr) i σ = (Returned o, σ')
    /\ props o = mapPropsOf id dr i /\ coherent σ'.
Proof.
  intros Hσ. unfold getMapProps, mapPropsOf, bind. simpl.
  destruct (strictEq _ id).
  - destruct (getDraggingOverMapProps_coherent
                (dg_id (descriptor dr),
                 if bool_decide (dg_droppableId (descriptor dr) = id)
                 then Some (dg_id (descriptor dr)) else None,
                 placeholder dr,
                 negb (bool_decide (dg_droppableId (descriptor dr) = id)))
                σ Hσ) as (o & σ' & Hrun & Hp & _ & _ & Hσ').
    by exists o, σ'.
  - destruct (bool_decide _); simpl.
    + destruct (getHomeNotDraggedOverMapProps_coherent
                  (dg_id (descriptor dr), placeholder dr) σ Hσ)
        as (o & σ' & Hrun & Hp & _ & _ & Hσ').
      by exists o, σ'.
    + by exists idle, σ.
Qed.

(** Whatever the catalog lookup gave, [getMapProps] keeps the instance
    coherent. *)
Lemma getMapProps_lookup_coherent id d i σ :
  coherent σ ->
  coherent (getMapProps id d i σ).2.
Proof.
  intros Hσ. destruct d as [dr|]; [|done].
  by destruct (getMapProps_coherent id dr i σ Hσ) as (o & σ' & -> & _ & ?).
Qed.

Lemma selector_coherent s own σ :
  coherent σ -> coherent (selector s own σ).2.
Proof.
  intros Hσ. unfold selector.
  destruct (isDragging s).
  - destruct (negb _); [done|]. by apply getMapProps_lookup_coherent.
  - case_bool_decide.
    + unfold bind. destruct (completed s) as [cd|]; simpl; [|done].
      destruct (negb _); [done|]. by apply getMapProps_lookup_coherent.
    + by repeat case_match.
Qed.

Lemma makeMapStateToProps_coherent : coherent makeMapStateToProps.
Proof. by repeat split. Qed.

(** Every state a running selector reaches is coherent. *)
Lemma reachable_coherent σ : reachable σ -> coherent σ.
Proof.
  induction 1 as [|σ s own _ IH].
  - apply makeMapStateToProps_coherent.
  - by apply selector_coherent.
Qed.

(** In an active phase, with a matching type and a catalog entry, the
    selector returns an object with the fields of [mapPropsOf]. *)
Lemma selector_active_matching σ s own c i dr :
  coherent σ -> active s c i ->
  isMatchingType (own_type own) c = true ->
  getDraggable c (dimensions s) = Some dr ->
  exists o σ',
    selector s own σ = (Returned o, σ')
    /\ props o = mapPropsOf (own_droppableId own) dr i /\ coherent σ'.
Proof.
  intros Hσ Hact Hty Hdr.
  rewrite (selector_active s own c i σ Hact), Hty, Hdr. simpl.
  by apply getMapProps_coherent.
Qed.

(** A region of another type gets the idle record in every phase that has
    a critical reference. *)
Lemma selector_type_mismatch σ s own c :
  carriesCritical s c ->
  isMatchingType (own_type own) c = false ->
  selector s own σ = (Returned idle, σ).
Proof.
  intros Hc Hty. destruct Hc as [s c i Hact | s cd Hidle].
  - by rewrite (selector_active s own c i σ Hact), Hty.
  - by rewrite (selector_idle_completed s own cd σ Hidle), Hty.
Qed.

(** * The claims *)

(** C1.  In phase DRAGGING, and in the same way in phase DROP_ANIMATING with
    the completed record's critical reference and impact, when the region's
    type matches and the resolved target of the impact is the region's id,
    select returns a record with [isDraggingOver = true],
    [draggingOverWith] the dragged descriptor's id, [draggingFromThisWith]
    that id when the descriptor's origin region is this region and null
    otherwise, [placeholder] the descriptor's placeholder, and
    [shouldAnimatePlaceholder] the negation of "the region is the origin". *)
Theorem C1_dragging_over_record σ s own c i dr :
  reachable σ -> active s c i ->
  isMatchingType (own_type own) c = true ->
  getDraggable c (dimensions s) = Some dr ->
  whatIsDraggedOver i = Some (own_droppableId own) ->
  let isOrigin :=
    bool_decide (dg_droppableId (descriptor dr) = own_droppableId own) in
  exists o σ',
    selector s own σ = (Returned o, σ')
    /\ isDraggingOver (props o) = true
    /\ draggingOverWith (props o) = Some (dg_id (descriptor dr))
    /\ draggingFromThisWith (props o)
       = (if isOrigin then Some (dg_id (descriptor dr)) else None)
    /\ mp_placeholder (props o) = Some (placeholder dr)
    /\ shouldAnimatePlaceholder (props o) = negb isOrigin.
Proof.
  intros Hσ Hact Hty Hdr Hover isOrigin.
  apply reachable_coherent in Hσ.
  destruct (selector_active_matching σ s own c i dr Hσ Hact Hty Hdr)
    as (o & σ' & Hrun & Hp & _).
  exists o, σ'. split; [done|]. rewrite Hp. unfold mapPropsOf.
  by rewrite (proj2 (strictEq_true _ _) Hover).
Qed.

(** C4.  In phase DRAGGING, and in the same way in phase DROP_ANIMATING,
    with a matching type: when the region is not the resolved target but is
    the dragged descriptor's origin region, select returns a record with
    [isDraggingOver = false], [draggingFromThisWith] the descriptor's id,
    [draggingOverWith = null], [placeholder] the descriptor's placeholder
    (so not null) and [shouldAnimatePlaceholder = false]; when the region is
    neither the target nor the origin, select returns the idle record. *)
Theorem C4_home_not_dragged_over_record σ s own c i dr :
  reachable σ -> active s c i ->
  isMatchingType (own_type own) c = true ->
  getDraggable c (dimensions s) = Some dr ->
  whatIsDraggedOver i <> Some (own_droppableId own) ->
  (dg_droppableId (descriptor dr) = own_droppableId own ->
   exists o σ',
     selector s own σ = (Returned o, σ')
     /\ isDraggingOver (props o) = false
     /\ draggingFromThisWith (props o) = Some (dg_id (descriptor dr))
     /\ draggingOverWith (props o) = None
     /\ mp_placeholder (props o) = Some (placeholder dr)
     /\ mp_placeholder (props o) <> None
     /\ shouldAnimatePlaceholder (props o) = false)
  /\ (dg_droppableId (descriptor dr) <> own_droppableId own ->
      selector s own σ = (Returned idle, σ)).
Proof.
  intros Hσ Hact Hty Hdr Hover. apply strictEq_false in Hover. split.
  - intros Hhome. apply reachable_coherent in Hσ.
    destruct (selector_active_matching σ s own c i dr Hσ Hact Hty Hdr)
      as (o & σ' & Hrun & Hp & _).
    exists o, σ'. split; [done|]. rewrite Hp. unfold mapPropsOf.
    rewrite Hover, bool_decide_eq_true_2 by done. by simpl.
  - intros Hhome.
    rewrite (selector_active s own c i σ Hact), Hty, Hdr. simpl.
    unfold getMapProps, bind. simpl.
    by rewrite Hover, bool_decide_eq_false_2.
Qed.

(** C8.  In phase DRAGGING, DROP_ANIMATING, or IDLE with a completed
    record, when the (live or completed) critical region type differs from
    the region's type, select returns the idle record, whatever the impact
    and whether or not the region is the target or the origin. *)
Theorem C8_type_mismatch_is_idle σ s own c :
  carriesCritical s c ->
  isMatchingType (own_type own) c = false ->
  selector s own σ = (Returned idle, σ).
Proof. apply selector_type_mismatch. Qed.

(** C3.  In phase IDLE with a completed record whose critical region type
    matches the region's type: when the region's id differs from the
    completed critical region's id, select returns the idle record; when it
    equals it, select returns the idle record if the collapse decision is
    true, and if it is false the record [idleWithoutAnimation], which has
    the idle record's fields with [shouldAnimatePlaceholder = false] and is
    not the idle constant. *)
Theorem C3_idle_with_completed σ s own cd :
  idleWithCompleted s cd ->
  isMatchingType (own_type own) (c_critical cd) = true ->
  let id := own_droppableId own in
  (dp_id (droppable (c_critical cd)) <> id ->
   selector s own σ = (Returned idle, σ))
  /\ (dp_id (droppable (c_critical cd)) = id ->
      shouldCollapseHomeAfterDrag id cd = true ->
      selector s own σ = (Returned idle, σ))
  /\ (dp_id (droppable (c_critical cd)) = id ->
      shouldCollapseHomeAfterDrag id cd = false ->
      exists o,
        selector s own σ = (Returned o, σ)
        /\ o <> idle /\ addr o <> addr idle
        /\ isDraggingOver (props o) = isDraggingOver (props idle)
        /\ draggingOverWith (props o) = draggingOverWith (props idle)
        /\ draggingFromThisWith (props o) = draggingFromThisWith (props idle)
        /\ mp_placeholder (props o) = mp_placeholder (props idle)
        /\ shouldAnimatePlaceholder (props o) = false
        /\ shouldAnimatePlaceholder (props idle) = true).
Proof.
  intros Hidle Hty id.
  rewrite (selector_idle_completed s own cd σ Hidle), Hty. simpl.
  split; [|split].
  - intros Hne. by rewrite bool_decide_eq_false_2.
  - intros Heq Hc. fold id. by rewrite bool_decide_eq_true_2, Hc.
  - intros Heq Hc. fold id. rewrite bool_decide_eq_true_2, Hc by done.
    simpl. exists idleWithoutAnimation. by repeat split.
Qed.

(** The decision for every region id and completed record: true exactly
    when the resolved target is the region and the impact has a merge, or
    the resolved target is a truthy id other than the region's. *)
Lemma shouldCollapseHomeAfterDrag_decision id cd :
  let target := whatIsDraggedOver (c_impact cd) in
  (shouldCollapseHomeAfterDrag id cd = true <->
   (target = Some id /\ merge (c_impact cd) <> None)
   \/ (target <> None /\ target <> Some "" /\ target <> Some id))
  /\ (shouldCollapseHomeAfterDrag id cd = false <->
      ~ ((target = Some id /\ merge (c_impact cd) <> None)
         \/ (target <> None /\ target <> Some "" /\ target <> Some id))).
Proof.
  intros target.
  assert (shouldCollapseHomeAfterDrag id cd = true <->
          (target = Some id /\ merge (c_impact cd) <> None)
          \/ (target <> None /\ target <> Some "" /\ target <> Some id)) as H.
  { rewrite shouldCollapseHomeAfterDrag_true. fold target.
    destruct target as [t|].
    - split; (intros [?|H]; [by left|right]).
      + destruct H as (t' & [= <-] & ? & ?).
        split; [done|]. split; congruence.
      + destruct H as (_ & ? & ?). exists t.
        split; [done|]. split; congruence.
    - split; (intros [[? _]|H]; [done|]).
      + by destruct H as (? & ? & _).
      + by destruct H as (? & _). }
  split; [done|]. rewrite <- H. by destruct (shouldCollapseHomeAfterDrag id cd).
Qed.

(** Whenever the resolved target is not the region with the empty id, the
    decision is true exactly when the target is the region and the impact
    has a merge, or the target is not null and differs from the region. *)
Lemma shouldCollapseHomeAfterDrag_nonempty_target id cd :
  let target := whatIsDraggedOver (c_impact cd) in
  target <> Some "" ->
  (shouldCollapseHomeAfterDrag id cd = true <->
   (target = Some id /\ merge (c_impact cd) <> None)
   \/ (target <> None /\ target <> Some id)).
Proof.
  intros target Hne.
  rewrite (proj1 (shouldCollapseHomeAfterDrag_decision id cd)). fold target.
  split; (intros [?|H]; [by left|right]).
  - by destruct H as (? & _ & ?).
  - by destruct H.
Qed.

(** C2.  The claim: the decision is true if and only if the resolved
    target is the region and the impact has a merge, or the resolved target
    is not null and differs from the region.  The code departs from it when
    the resolved target is the region with the empty id: for the region "A"
    and a completed impact whose destination is the region "", the target
    is not null and differs from "A", a foreign list, yet
    [Boolean(wasOver)] is false and the decision is false.  The sibling
    test [wasOver === id] takes the empty id as any other: for the region
    "" itself a merge there gives true. *)
Lemma C2_empty_target_not_collapsed :
  let cd := {| c_critical := Sample.criticalA; c_impact := Sample.over "" |} in
  let target := whatIsDraggedOver (c_impact cd) in
  target = Some "" /\ target <> None /\ target <> Some "A"
  /\ shouldCollapseHomeAfterDrag "A" cd = false
  /\ ~ (shouldCollapseHomeAfterDrag "A" cd = true <->
        (target = Some "A" /\ merge (c_impact cd) <> None)
        \/ (target <> None /\ target <> Some "A"))
  /\ shouldCollapseHomeAfterDrag ""
       {| c_critical := Sample.criticalA;
          c_impact := Sample.mergingIn "" |} = true.
Proof.
  simpl. split; [done|]. split; [done|]. split; [done|]. split; [done|].
  split; [|done]. intros [_ H]. discriminate H. by right.
Qed.

(** C6, as stated, fails: a DRAGGING session whose critical reference names
    a draggable the catalog lacks, seen from a region of another type, gets
    the idle record and no error. *)
Lemma C6_counterexample :
  let s := Sample.dragging Sample.criticalMissing 10 (Sample.over "A") in
  active s Sample.criticalMissing (Sample.over "A")
  /\ getDraggable Sample.criticalMissing (dimensions s) = None
  /\ selector s Sample.regionOther makeMapStateToProps
     = (Returned idle, makeMapStateToProps).
Proof.
  simpl. split; [|by split].
  by apply (active_dragging
              (Sample.dragging Sample.criticalMissing 10 (Sample.over "A"))).
Qed.

(** C6, amended.  For an active session (DRAGGING or DROP_ANIMATING) whose
    critical reference names a draggable id absent from the catalog: a
    region whose type matches gets an error ([getDraggable] returns
    [undefined], and the [TypeError] is thrown where [getMapProps] reads the
    result's descriptor), never a record; a region whose type differs gets
    the idle record, the catalog not being consulted. *)
Theorem C6_missing_catalog_entry σ s own c i :
  active s c i ->
  getDraggable c (dimensions s) = None ->
  (isMatchingType (own_type own) c = true ->
   selector s own σ = (Thrown TypeError, σ))
  /\ (isMatchingType (own_type own) c = false ->
      selector s own σ = (Returned idle, σ)).
Proof.
  intros Hact Hdr.
  rewrite (selector_active s own c i σ Hact), Hdr.
  split; by intros ->.
Qed.

(** C7, as stated, fails: a state whose phase tag is none of the recognised
    ones gets the idle record and no error. *)
Lemma C7_counterexample :
  let s := withPhase "BOGUS" (Sample.idleAfter (Sample.over "A")) in
  (phase s ∉ recognisedPhases)
  /\ selector s Sample.regionA makeMapStateToProps
     = (Returned idle, makeMapStateToProps).
Proof.
  simpl. split; [|done]. unfold recognisedPhases.
  rewrite !elem_of_cons, elem_of_nil. by intros [|[|[|]]].
Qed.

(** C7, amended.  For a session state whose phase tag is outside the
    recognised ones select does not abort: when the [isDragging] flag is not
    set it returns the idle record, and when it is set it treats the state
    as it treats a DRAGGING one. *)
Theorem C7_unrecognised_phase σ s own :
  phase s ∉ recognisedPhases ->
  (isDragging s = false -> selector s own σ = (Returned idle, σ))
  /\ (isDragging s = true ->
      selector s own σ = selector (withPhase "DRAGGING" s) own σ).
Proof.
  unfold recognisedPhases. rewrite !not_elem_of_cons. intros (Hi & _ & Ha & _).
  split.
  - intros Hd. apply selector_other_phase; auto.
  - intros Hd. by rewrite !selector_dragging.
Qed.

(** C10.  For a state with the [isDragging] flag set, select computes its
    result from the live critical reference, the catalog and the impact
    alone: two such states that agree on these three get the same outcome
    and leave the same caches, whatever their phase tags and completed
    records are. *)
Theorem C10_isDragging_decides σ s s' own :
  isDragging s = true -> isDragging s' = true ->
  critical s = critical s' ->
  dimensions s = dimensions s' ->
  impact s = impact s' ->
  selector s own σ = selector s' own σ.
Proof.
  intros Hs Hs' Hc Hd Hi.
  by rewrite !selector_dragging, Hc, Hd, Hi.
Qed.

(** ** What select can return *)

Lemma getMapProps_returns id d i σ o σ' :
  coherent σ ->
  getMapProps id d i σ = (Returned o, σ') ->
  exists dr, d = Some dr /\ props o = mapPropsOf id dr i.
Proof.
  intros Hσ Hrun. destruct d as [dr|]; [|done].
  destruct (getMapProps_coherent id dr i σ Hσ) as (o0 & σ0 & Hrun0 & Hp & _).
  rewrite Hrun0 in Hrun. injection Hrun as <- <-. by exists dr.
Qed.

(** A returned object is one of the two constants or carries the fields
    [getMapProps] computes for some catalog entry. *)
Lemma selector_returns σ s own o σ' :
  coherent σ ->
  selector s own σ = (Returned o, σ') ->
  o = idle \/ o = idleWithoutAnimation
  \/ exists dr i, props o = mapPropsOf (own_droppableId own) dr i.
Proof.
  intros Hσ. unfold selector.
  destruct (isDragging s).
  - destruct (negb _).
    + intros [= <- <-]. by left.
    + intros (dr & _ & Hp)%getMapProps_returns; [|done]. right. right. eauto.
  - case_bool_decide.
    + unfold bind. destruct (completed s) as [cd|]; simpl; [|done].
      destruct (negb _).
      * intros [= <- <-]. by left.
      * intros (dr & _ & Hp)%getMapProps_returns; [|done].
        right. right. eauto.
    + repeat case_match; intros [= <- <-]; auto.
Qed.

Lemma mapPropsOf_draggingOverWith id dr i :
  draggingOverWith (mapPropsOf id dr i) <> None
  <-> isDraggingOver (mapPropsOf id dr i) = true.
Proof.
  unfold mapPropsOf. destruct (strictEq _ id); simpl; [done|].
  by destruct (bool_decide _).
Qed.

Lemma mapPropsOf_placeholder id dr i :
  mp_placeholder (mapPropsOf id dr i) <> None
  <-> isDraggingOver (mapPropsOf id dr i) = true
      \/ dg_droppableId (descriptor dr) = id.
Proof.
  unfold mapPropsOf. destruct (strictEq _ id); simpl.
  - split; [by left|done].
  - case_bool_decide; simpl.
    + split; [by right|done].
    + split; [done|]. by intros [|].
Qed.

(** C9, as stated, fails: once the session is IDLE with a completed record,
    the origin region of the completed drag gets a record whose placeholder
    is null, although the region is the drag's origin. *)
Lemma C9_counterexample :
  let s := Sample.idleAfter (Sample.over "A") in
  let own := Sample.regionA in
  exists o cd,
    selector s own makeMapStateToProps = (Returned o, makeMapStateToProps)
    /\ completed s = Some cd
    /\ dg_droppableId (draggable (c_critical cd)) = own_droppableId own
    /\ dp_id (droppable (c_critical cd)) = own_droppableId own
    /\ mp_placeholder (props o) = None
    /\ ~ (mp_placeholder (props o) <> None <->
          isDraggingOver (props o) = true
          \/ dg_droppableId (draggable (c_critical cd)) = own_droppableId own).
Proof.
  simpl. eexists _, _. split; [reflexivity|]. split; [reflexivity|]. simpl.
  split; [done|]. split; [done|]. split; [done|].
  intros [_ H]. by apply H; [right|].
Qed.

(** C9, amended.  Every record select returns has [draggingOverWith]
    non-null if and only if [isDraggingOver] is true.  In phases DRAGGING
    and DROP_ANIMATING, for a region of matching type, its [placeholder] is
    non-null if and only if [isDraggingOver] is true or the dragged
    descriptor's origin region is this region.  Where the types differ, and
    in phase IDLE, its [placeholder] is null. *)
Theorem C9_view_props_invariant σ s own o σ' :
  reachable σ ->
  selector s own σ = (Returned o, σ') ->
  (draggingOverWith (props o) <> None <-> isDraggingOver (props o) = true)
  /\ (forall c i dr,
        active s c i ->
        isMatchingType (own_type own) c = true ->
        getDraggable c (dimensions s) = Some dr ->
        (mp_placeholder (props o) <> None <->
         isDraggingOver (props o) = true
         \/ dg_droppableId (descriptor dr) = own_droppableId own))
  /\ (forall c,
        carriesCritical s c ->
        isMatchingType (own_type own) c = false ->
        mp_placeholder (props o) = None)
  /\ (isDragging s = false -> phase s = "IDLE" ->
      mp_placeholder (props o) = None).
Proof.
  intros Hσ%reachable_coherent Hrun. split; [|split; [|split]].
  - destruct (selector_returns σ s own o σ' Hσ Hrun)
      as [-> | [-> | (dr & i & ->)]]; [done|done|].
    apply mapPropsOf_draggingOverWith.
  - intros c i dr Hact Hty Hdr.
    destruct (selector_active_matching σ s own c i dr Hσ Hact Hty Hdr)
      as (o0 & σ0 & Hrun0 & Hp & _).
    rewrite Hrun0 in Hrun. injection Hrun as <- <-. rewrite Hp.
    apply mapPropsOf_placeholder.
  - intros c Hc Hty.
    rewrite (selector_type_mismatch σ s own c Hc Hty) in Hrun.
    by injection Hrun as <- <-.
  - intros Hd Hp. destruct (completed s) as [cd|] eqn:Hcd.
    + rewrite (selector_idle_completed s own cd σ) in Hrun by done.
      injection Hrun as <- <-. by repeat case_match.
    + rewrite selector_other_phase in Hrun; auto.
      * by injection Hrun as <- <-.
      * by rewrite Hp.
Qed.

(** ** Memoization *)

Section memoizeOne_again.
Context {Args : Type} (areInputsEqual : Args -> Args -> bool).
Context (resultFn : Args -> MapProps).
Hypothesis areInputsEqual_true :
  forall a b, areInputsEqual a b = true <-> a = b.

(** Calling again with the same arguments returns the same object and
    leaves the slot and the allocator as they are. *)
Lemma memoizeOne_again slot next a o slot' next' :
  memoizeOne areInputsEqual resultFn slot next a = (o, slot', next') ->
  memoizeOne areInputsEqual resultFn slot' next' a = (o, slot', next').
Proof.
  unfold memoizeOne. destruct slot as [[lastArgs lastResult]|].
  - destruct (areInputsEqual a lastArgs) eqn:Heq.
    + intros [= <- <- <-]. by rewrite Heq.
    + intros [= <- <- <-].
      by rewrite (proj2 (areInputsEqual_true a a) eq_refl).
  - intros [= <- <- <-].
    by rewrite (proj2 (areInputsEqual_true a a) eq_refl).
Qed.
End memoizeOne_again.

Lemma getDraggingOverMapProps_again a σ r σ1 :
  getDraggingOverMapProps a σ = (r, σ1) ->
  getDraggingOverMapProps a σ1 = (r, σ1).
Proof.
  unfold getDraggingOverMapProps.
  destruct (memoizeOne _ _ _ _ a) as [[o slot'] next'] eqn:Hm.
  intros [= <- <-]. simpl.
  by rewrite (memoizeOne_again _ _ overArgsEqual_true _ _ _ _ _ _ Hm).
Qed.

Lemma getHomeNotDraggedOverMapProps_again a σ r σ1 :
  getHomeNotDraggedOverMapProps a σ = (r, σ1) ->
  getHomeNotDraggedOverMapProps a σ1 = (r, σ1).
Proof.
  unfold getHomeNotDraggedOverMapProps.
  destruct (memoizeOne _ _ _ _ a) as [[o slot'] next'] eqn:Hm.
  intros [= <- <-]. simpl.
  by rewrite (memoizeOne_again _ _ homeArgsEqual_true _ _ _ _ _ _ Hm).
Qed.

Lemma getMapProps_again id d i σ r σ1 :
  getMapProps id d i σ = (r, σ1) -> getMapProps id d i σ1 = (r, σ1).
Proof.
  destruct d as [dr|]; [|by intros [= <- <-]].
  unfold getMapProps, bind. simpl. destruct (strictEq _ id).
  - apply getDraggingOverMapProps_again.
  - destruct (negb _); [by intros [= <- <-]|].
    apply getHomeNotDraggedOverMapProps_again.
Qed.

(** Two calls in a row with the same state and the same own props: the
    second returns what the first returned, the very same object, and
    leaves the caches as the first left them. *)
Lemma selector_again s own σ r σ1 :
  selector s own σ = (r, σ1) -> selector s own σ1 = (r, σ1).
Proof.
  unfold selector. destruct (isDragging s).
  - destruct (negb _); [by intros [= <- <-]|]. apply getMapProps_again.
  - case_bool_decide.
    + unfold bind. destruct (completed s) as [cd|]; simpl.
      * destruct (negb _); [by intros [= <- <-]|]. apply getMapProps_again.
      * by intros [= <- <-].
    + by repeat case_match; intros [= <- <-].
Qed.

(** A call whose arguments are in the slot returns the cached object and
    changes nothing. *)
Lemma getDraggingOverMapProps_hit a o σ :
  draggingOverCache σ = Some (a, o) ->
  getDraggingOverMapProps a σ = (Returned o, σ).
Proof.
  destruct σ as [next over home]. simpl. intros ->.
  unfold getDraggingOverMapProps.
  cbn [nextAddr draggingOverCache homeNotDraggedOverCache].
  by rewrite (memoizeOne_hit _ _ overArgsEqual_true).
Qed.

Lemma getHomeNotDraggedOverMapProps_hit a o σ :
  homeNotDraggedOverCache σ = Some (a, o) ->
  getHomeNotDraggedOverMapProps a σ = (Returned o, σ).
Proof.
  destruct σ as [next over home]. simpl. intros ->.
  unfold getHomeNotDraggedOverMapProps.
  cbn [nextAddr draggingOverCache homeNotDraggedOverCache].
  by rewrite (memoizeOne_hit _ _ homeArgsEqual_true).
Qed.

(** Which constructor [getMapProps] calls. *)
Lemma getMapProps_over id dr i σ :
  whatIsDraggedOver i = Some id ->
  getMapProps id (Some dr) i σ
  = getDraggingOverMapProps
      (dg_id (descriptor dr),
       if bool_decide (dg_droppableId (descriptor dr) = id)
       then Some (dg_id (descriptor dr)) else None,
       placeholder dr,
       negb (bool_decide (dg_droppableId (descriptor dr) = id))) σ.
Proof.
  intros Hover%strictEq_true. unfold getMapProps, bind. simpl.
  by rewrite Hover.
Qed.

Lemma getMapProps_home id dr i σ :
  whatIsDraggedOver i <> Some id ->
  dg_droppableId (descriptor dr) = id ->
  getMapProps id (Some dr) i σ
  = getHomeNotDraggedOverMapProps
      (dg_id (descriptor dr), placeholder dr) σ.
Proof.
  intros Hover%strictEq_false Hhome. unfold getMapProps, bind. simpl.
  by rewrite Hover, bool_decide_eq_true_2.
Qed.

(** C5, as stated, fails: two DRAGGING states that are structurally
    identical, the placeholder of the second being another object with the
    same content, make two successive calls return two different objects. *)
Lemma C5_counterexample :
  let s1 := Sample.dragging Sample.criticalA 10 (Sample.over "B") in
  let s2 := Sample.dragging Sample.criticalA 11 (Sample.over "B") in
  structurallyIdentical Sample.heap s1 s2
  /\ exists o1 σ1 o2 σ2,
       selector s1 Sample.regionB makeMapStateToProps = (Returned o1, σ1)
       /\ selector s2 Sample.regionB σ1 = (Returned o2, σ2)
       /\ addr o1 = 2 /\ addr o2 = 3 /\ addr o1 <> addr o2.
Proof.
  simpl. split.
  - repeat split. intros k. simpl.
    destruct (decide (k = "item-1")) as [->|Hne].
    + rewrite !lookup_singleton_eq. constructor. by repeat split.
    + rewrite !lookup_singleton_ne by done. constructor.
  - eexists _, _, _, _.
    split; [vm_compute; reflexivity|]. split; [vm_compute; reflexivity|].
    simpl. by repeat split.
Qed.

(** C5, amended.  For one selector instance: calling select twice in
    succession with identical inputs, the same values and the same
    placeholder object, returns the exact same output object and leaves the
    caches untouched; and when the region alternates between the
    dragging-over outcome and the home, not hovered outcome, each call
    returns a record built from its own arguments, never the other
    outcome's cached one, and a later call of either outcome returns the
    very object its earlier call returned, the two constructors having each
    its own slot. *)
Theorem C5_memoization σ own :
  reachable σ ->
  let id := own_droppableId own in
  (forall s r σ1,
      selector s own σ = (r, σ1) -> selector s own σ1 = (r, σ1))
  /\ (forall sO cO iO drO sH cH iH drH,
        active sO cO iO ->
        isMatchingType (own_type own) cO = true ->
        getDraggable cO (dimensions sO) = Some drO ->
        whatIsDraggedOver iO = Some id ->
        active sH cH iH ->
        isMatchingType (own_type own) cH = true ->
        getDraggable cH (dimensions sH) = Some drH ->
        whatIsDraggedOver iH <> Some id ->
        dg_droppableId (descriptor drH) = id ->
        exists o h σ1 σ2,
          selector sO own σ = (Returned o, σ1)
          /\ props o = mapPropsOf id drO iO
          /\ isDraggingOver (props o) = true
          /\ selector sH own σ1 = (Returned h, σ2)
          /\ props h = mapPropsOf id drH iH
          /\ isDraggingOver (props h) = false
          /\ selector sO own σ2 = (Returned o, σ2)
          /\ selector sH own σ2 = (Returned h, σ2)).
Proof.
  intros Hσ%reachable_coherent id. split.
  - intros s r σ1. apply selector_again.
  - intros sO cO iO drO sH cH iH drH HaO HtO HdO HoverO HaH HtH HdH HoverH Hhome.
    set (aO := (dg_id (descriptor drO),
                if bool_decide (dg_droppableId (descriptor drO) = id)
                then Some (dg_id (descriptor drO)) else None,
                placeholder drO,
                negb (bool_decide (dg_droppableId (descriptor drO) = id)))).
    set (aH := (dg_id (descriptor drH), placeholder drH)).
    assert (forall τ, selector sO own τ = getDraggingOverMapProps aO τ)
      as HselO.
    { intros τ. rewrite (selector_active sO own cO iO τ HaO), HtO, HdO.
      by apply getMapProps_over. }
    assert (forall τ, selector sH own τ = getHomeNotDraggedOverMapProps aH τ)
      as HselH.
    { intros τ. rewrite (selector_active sH own cH iH τ HaH), HtH, HdH.
      by apply getMapProps_home. }
    destruct (getDraggingOverMapProps_coherent aO σ Hσ)
      as (o & σ1 & Hrun1 & Hp1 & Hover1 & _ & Hσ1).
    destruct (getHomeNotDraggedOverMapProps_coherent aH σ1 Hσ1)
      as (h & σ2 & Hrun2 & Hp2 & Hhome2 & Hover2 & _).
    rewrite Hover1 in Hover2.
    assert (props o = mapPropsOf id drO iO) as HpO.
    { rewrite Hp1. unfold mapPropsOf.
      by rewrite (proj2 (strictEq_true _ _) HoverO). }
    assert (props h = mapPropsOf id drH iH) as HpH.
    { rewrite Hp2. unfold mapPropsOf.
      by rewrite (proj2 (strictEq_false _ _) HoverH), bool_decide_eq_true_2. }
    exists o, h, σ1, σ2. rewrite !HselO, !HselH.
    split; [done|]. split; [done|]. split; [by rewrite Hp1|].
    split; [done|]. split; [done|]. split; [by rewrite Hp2|].
    split.
    + by apply getDraggingOverMapProps_hit.
    + by apply getHomeNotDraggedOverMapProps_hit.
Qed.

(** * The claims at the sample sessions *)

(** C1 at a DROP_ANIMATING session over its origin region "A", from an
    instance that has served one call. *)
Lemma C1_witness :
  let σ := (selector (Sample.dragging Sample.criticalA 10 (Sample.over "B"))
              Sample.regionA makeMapStateToProps).2 in
  exists o σ',
    selector (Sample.dropAnimating 10 (Sample.over "A")) Sample.regionA σ
    = (Returned o, σ')
    /\ isDraggingOver (props o) = true
    /\ draggingOverWith (props o) = Some "item-1"
    /\ draggingFromThisWith (props o) = Some "item-1"
    /\ mp_placeholder (props o) = Some 10
    /\ shouldAnimatePlaceholder (props o) = false.
Proof.
  intros σ.
  apply (C1_dragging_over_record σ
           (Sample.dropAnimating 10 (Sample.over "A")) Sample.regionA
           Sample.criticalA (Sample.over "A")
           {| descriptor := Sample.item1; placeholder := 10 |}).
  - apply reachable_call, reachable_fresh.
  - apply (active_drop_animating
             (Sample.dropAnimating 10 (Sample.over "A"))
             {| c_critical := Sample.criticalA;
                c_impact := Sample.over "A" |}); reflexivity.
  - vm_compute; reflexivity.
  - vm_compute; reflexivity.
  - reflexivity.
Defined.

(** C3 at an IDLE session whose drag ended over its origin region "A"
    without a merge: the origin gets [idleWithoutAnimation]. *)
Lemma C3_witness :
  shouldCollapseHomeAfterDrag "A"
    {| c_critical := Sample.criticalA; c_impact := Sample.over "A" |} = false
  /\ exists o,
       selector (Sample.idleAfter (Sample.over "A")) Sample.regionA
         makeMapStateToProps
       = (Returned o, makeMapStateToProps)
       /\ o <> idle /\ addr o <> addr idle
       /\ isDraggingOver (props o) = isDraggingOver (props idle)
       /\ draggingOverWith (props o) = draggingOverWith (props idle)
       /\ draggingFromThisWith (props o) = draggingFromThisWith (props idle)
       /\ mp_placeholder (props o) = mp_placeholder (props idle)
       /\ shouldAnimatePlaceholder (props o) = false
       /\ shouldAnimatePlaceholder (props idle) = true.
Proof.
  split; [vm_compute; reflexivity|].
  apply (C3_idle_with_completed makeMapStateToProps
           (Sample.idleAfter (Sample.over "A")) Sample.regionA
           {| c_critical := Sample.criticalA; c_impact := Sample.over "A" |}).
  - repeat split; reflexivity.
  - vm_compute; reflexivity.
  - reflexivity.
  - vm_compute; reflexivity.
Defined.

(** C4 at a DRAGGING session from region "A" that hovers over region "B":
    the record of the origin region "A". *)
Lemma C4_witness :
  exists o σ',
    selector (Sample.dragging Sample.criticalA 10 (Sample.over "B"))
      Sample.regionA makeMapStateToProps
    = (Returned o, σ')
    /\ isDraggingOver (props o) = false
    /\ draggingFromThisWith (props o) = Some "item-1"
    /\ draggingOverWith (props o) = None
    /\ mp_placeholder (props o) = Some 10
    /\ mp_placeholder (props o) <> None
    /\ shouldAnimatePlaceholder (props o) = false.
Proof.
  apply (C4_home_not_dragged_over_record makeMapStateToProps
           (Sample.dragging Sample.criticalA 10 (Sample.over "B"))
           Sample.regionA Sample.criticalA (Sample.over "B")
           {| descriptor := Sample.item1; placeholder := 10 |}).
  - apply reachable_fresh.
  - apply (active_dragging
             (Sample.dragging Sample.criticalA 10 (Sample.over "B")));
      reflexivity.
  - vm_compute; reflexivity.
  - vm_compute; reflexivity.
  - vm_compute. discriminate.
  - reflexivity.
Defined.

(** C5 at a fresh instance for region "A": the drag from "A" hovers over
    "A", then over "B", then over "A" again. *)
Lemma C5_witness :
  let sO := Sample.dragging Sample.criticalA 10 (Sample.over "A") in
  let sH := Sample.dragging Sample.criticalA 10 (Sample.over "B") in
  let dr := {| descriptor := Sample.item1; placeholder := 10 |} in
  exists o h σ1 σ2,
    selector sO Sample.regionA makeMapStateToProps = (Returned o, σ1)
    /\ props o = mapPropsOf "A" dr (Sample.over "A")
    /\ isDraggingOver (props o) = true
    /\ selector sH Sample.regionA σ1 = (Returned h, σ2)
    /\ props h = mapPropsOf "A" dr (Sample.over "B")
    /\ isDraggingOver (props h) = false
    /\ selector sO Sample.regionA σ2 = (Returned o, σ2)
    /\ selector sH Sample.regionA σ2 = (Returned h, σ2).
Proof.
  intros sO sH dr.
  apply (proj2 (C5_memoization makeMapStateToProps Sample.regionA
                  reachable_fresh)
           sO Sample.criticalA (Sample.over "A") dr
           sH Sample.criticalA (Sample.over "B") dr).
  - apply (active_dragging sO); reflexivity.
  - vm_compute; reflexivity.
  - vm_compute; reflexivity.
  - reflexivity.
  - apply (active_dragging sH); reflexivity.
  - vm_compute; reflexivity.
  - vm_compute; reflexivity.
  - vm_compute. discriminate.
  - reflexivity.
Defined.

(** C6 at a DRAGGING session whose critical draggable "item-9" is not in
    the catalog, for the region "A" of the session's type. *)
Lemma C6_witness :
  selector (Sample.dragging Sample.criticalMissing 10 (Sample.over "A"))
    Sample.regionA makeMapStateToProps
  = (Thrown TypeError, makeMapStateToProps).
Proof.
  apply (C6_missing_catalog_entry makeMapStateToProps
           (Sample.dragging Sample.criticalMissing 10 (Sample.over "A"))
           Sample.regionA Sample.criticalMissing (Sample.over "A")).
  - apply (active_dragging
             (Sample.dragging Sample.criticalMissing 10 (Sample.over "A")));
      reflexivity.
  - vm_compute; reflexivity.
  - vm_compute; reflexivity.
Defined.

(** C7 at a state with the phase tag "BOGUS" and no [isDragging] flag. *)
Lemma C7_witness :
  selector (withPhase "BOGUS" (Sample.idleAfter (Sample.over "A")))
    Sample.regionA makeMapStateToProps
  = (Returned idle, makeMapStateToProps).
Proof.
  refine (proj1 (C7_unrecognised_phase makeMapStateToProps
                   (withPhase "BOGUS" (Sample.idleAfter (Sample.over "A")))
                   Sample.regionA _) _).
  - unfold recognisedPhases. simpl.
    rewrite !elem_of_cons, elem_of_nil. intros [H|[H|[H|H]]]; by inversion H.
  - reflexivity.
Defined.

(** C8 at a DRAGGING session of type "DEFAULT" over region "A", for a
    region with that id and the type "OTHER". *)
Lemma C8_witness :
  selector (Sample.dragging Sample.criticalA 10 (Sample.over "A"))
    Sample.regionOther makeMapStateToProps
  = (Returned idle, makeMapStateToProps).
Proof.
  apply (C8_type_mismatch_is_idle makeMapStateToProps
           (Sample.dragging Sample.criticalA 10 (Sample.over "A"))
           Sample.regionOther Sample.criticalA).
  - apply (carries_active _ _ (Sample.over "A")).
    apply (active_dragging
             (Sample.dragging Sample.criticalA 10 (Sample.over "A")));
      reflexivity.
  - vm_compute; reflexivity.
Defined.

(** C9 at the record the origin region "A" gets while the drag hovers over
    region "B". *)
Lemma C9_witness :
  let s := Sample.dragging Sample.criticalA 10 (Sample.over "B") in
  let o := {| addr := 2;
              props := homeNotDraggedOverProps ("item-1", 10) |} in
  selector s Sample.regionA makeMapStateToProps
  = (Returned o,
     {| nextAddr := 3; draggingOverCache := None;
        homeNotDraggedOverCache := Some (("item-1", 10), o) |})
  /\ (draggingOverWith (props o) <> None <-> isDraggingOver (props o) = true)
  /\ (mp_placeholder (props o) <> None <->
      isDraggingOver (props o) = true
      \/ dg_droppableId Sample.item1 = own_droppableId Sample.regionA).
Proof.
  intros s o.
  assert (selector s Sample.regionA makeMapStateToProps
          = (Returned o,
             {| nextAddr := 3; draggingOverCache := None;
                homeNotDraggedOverCache := Some (("item-1", 10), o) |}))
    as Hrun by (vm_compute; reflexivity).
  split; [exact Hrun|].
  destruct (C9_view_props_invariant makeMapStateToProps s Sample.regionA o _
              reachable_fresh Hrun) as (Hover & Hplaceholder & _).
  split; [exact Hover|].
  apply (Hplaceholder Sample.criticalA (Sample.over "B")
           {| descriptor := Sample.item1; placeholder := 10 |}).
  - apply (active_dragging s); reflexivity.
  - vm_compute; reflexivity.
  - vm_compute; reflexivity.
Defined.

(** C10 at two states with the [isDragging] flag set and the same live
    critical reference, catalog and impact: one tagged DRAGGING without a
    completed record, one tagged DROP_ANIMATING with one. *)
Lemma C10_witness :
  selector (Sample.dragging Sample.criticalA 10 (Sample.over "A"))
    Sample.regionA makeMapStateToProps
  = selector
      {| phase := "DROP_ANIMATING"; isDragging := true;
         critical := Sample.criticalA; dimensions := Sample.catalog 10;
         impact := Sample.over "A";
         completed := Some {| c_critical := Sample.criticalMissing;
                              c_impact := Sample.overNothing |} |}
      Sample.regionA makeMapStateToProps.
Proof.
  apply C10_isDragging_decides; reflexivity.
Defined.

(** * Worked sessions *)

(** The collapse decision for the region "A". *)
Example collapse_when_merging_at_home :
  shouldCollapseHomeAfterDrag "A"
    {| c_critical := Sample.criticalA; c_impact := Sample.mergingIn "A" |}
  = true.
Proof. vm_compute; reflexivity. Qed.

Example collapse_when_dropped_in_foreign_list :
  shouldCollapseHomeAfterDrag "A"
    {| c_critical := Sample.criticalA; c_impact := Sample.over "B" |}
  = true
  /\ shouldCollapseHomeAfterDrag "A"
       {| c_critical := Sample.criticalA; c_impact := Sample.mergingIn "B" |}
     = true.
Proof. split; vm_compute; reflexivity. Qed.

Example no_collapse_when_dropped_at_home :
  shouldCollapseHomeAfterDrag "A"
    {| c_critical := Sample.criticalA; c_impact := Sample.over "A" |}
  = false.
Proof. vm_compute; reflexivity. Qed.

Example no_collapse_when_dropped_on_nothing :
  shouldCollapseHomeAfterDrag "A"
    {| c_critical := Sample.criticalA; c_impact := Sample.overNothing |}
  = false.
Proof. vm_compute; reflexivity. Qed.

(** One selector, for the origin region "A", follows a drag that stays over
    "A": DRAGGING, then DROP_ANIMATING, then IDLE with the completed record.
    The first two calls return one and the same object, the last one
    [idleWithoutAnimation]. *)
Example drag_drop_and_settle_at_home :
  let own := Sample.regionA in
  let first :=
    selector (Sample.dragging Sample.criticalA 10 (Sample.over "A")) own
      makeMapStateToProps in
  let second :=
    selector (Sample.dropAnimating 10 (Sample.over "A")) own first.2 in
  let third :=
    selector (Sample.idleAfter (Sample.over "A")) own second.2 in
  first.1
  = Returned {| addr := 2;
                props := {| isDraggingOver := true;
                            draggingOverWith := Some "item-1";
                            draggingFromThisWith := Some "item-1";
                            mp_placeholder := Some 10;
                            shouldAnimatePlaceholder := false |} |}
  /\ second.1 = first.1
  /\ third.1 = Returned idleWithoutAnimation
  /\ third.2 = first.2.
Proof. vm_compute. by repeat split. Qed.

(** A selector without a session returns the idle constant. *)
Example no_session_is_idle :
  selector
    {| phase := "IDLE"; isDragging := false;
       critical := Sample.criticalMissing; dimensions := Sample.catalog 10;
       impact := Sample.overNothing; completed := None |}
    Sample.regionA makeMapStateToProps
  = (Returned idle, makeMapStateToProps).
Proof. vm_compute; reflexivity. Qed.

(** * Further properties of the selector *)

(** ** Where a call's outcome comes from *)

Lemma selector_consulted s own c i σ :
  consulted s = Some (c, i) ->
  selector s own σ =
    (if negb (isMatchingType (own_type own) c) then ret idle
     else getMapProps (own_droppableId own)
            (getDraggable c (dimensions s)) i) σ.
Proof.
  unfold consulted. destruct (isDragging s) eqn:Hd.
  - intros [= <- <-]. by apply selector_dragging.
  - case_bool_decide as Hp; [|done].
    destruct (completed s) as [cd|] eqn:Hc; [|done].
    intros [= <- <-]. by apply selector_drop_animating.
Qed.

Lemma selector_not_consulted s own σ :
  consulted s = None ->
  isDragging s = false
  /\ ((phase s = "DROP_ANIMATING" /\ completed s = None
       /\ selector s own σ = (Thrown TypeError, σ))
      \/ (phase s <> "DROP_ANIMATING"
          /\ exists o, selector s own σ = (Returned o, σ)
                       /\ (o = idle \/ o = idleWithoutAnimation))).
Proof.
  unfold consulted, selector. destruct (isDragging s); [done|].
  intros H. split; [done|]. case_bool_decide as Hp.
  - destruct (completed s); [done|]. left. by repeat split.
  - right. split; [done|].
    repeat case_match; eexists; (split; [reflexivity|]); auto.
Qed.

Lemma getMapProps_provenance id d i σ r σ' :
  getMapProps id d i σ = (r, σ') ->
  (σ' = σ /\ (r = Thrown TypeError \/ r = Returned idle))
  \/ (exists a, getDraggingOverMapProps a σ = (r, σ'))
  \/ (exists a, getHomeNotDraggedOverMapProps a σ = (r, σ')).
Proof.
  destruct d as [dr|]; [|intros [= <- <-]; left; auto].
  unfold getMapProps, bind. simpl. destruct (strictEq _ id).
  - intros H. right. left. eauto.
  - destruct (negb _).
    + intros [= <- <-]. left. auto.
    + intros H. right. right. eauto.
Qed.

(** The outcome of a call is an error, one of the two constants, or what
    one of the two memoized constructors returned. *)
Lemma selector_provenance s own σ r σ' :
  selector s own σ = (r, σ') ->
  (σ' = σ /\ (r = Thrown TypeError \/ r = Returned idle
              \/ r = Returned idleWithoutAnimation))
  \/ (exists a, getDraggingOverMapProps a σ = (r, σ'))
  \/ (exists a, getHomeNotDraggedOverMapProps a σ = (r, σ')).
Proof.
  destruct (consulted s) as [[c i]|] eqn:Hc.
  - rewrite (selector_consulted s own c i σ Hc). destruct (negb _).
    + intros [= <- <-]. left. auto.
    + intros [[-> [->| ->]]|H]%getMapProps_provenance; auto.
  - destruct (selector_not_consulted s own σ Hc)
      as [_ [(_ & _ & ->)|(_ & o & -> & Ho)]].
    + intros [= <- <-]. left. auto.
    + intros [= <- <-]. left. destruct Ho as [-> | ->]; auto.
Qed.

Lemma getDraggingOverMapProps_step a σ r σ' :
  getDraggingOverMapProps a σ = (r, σ') ->
  exists o,
    r = Returned o
    /\ draggingOverCache σ' = Some (a, o)
    /\ homeNotDraggedOverCache σ' = homeNotDraggedOverCache σ
    /\ (σ' = σ
        \/ (addr o = nextAddr σ /\ nextAddr σ' = S (nextAddr σ)
            /\ props o = draggingOverProps a)).
Proof.
  destruct σ as [next over home]. unfold getDraggingOverMapProps, memoizeOne.
  cbn [nextAddr draggingOverCache homeNotDraggedOverCache].
  destruct over as [[lastArgs lastResult]|].
  - destruct (overArgsEqual a lastArgs) eqn:Heq.
    + apply overArgsEqual_true in Heq as ->. intros [= <- <-].
      exists lastResult. auto.
    + intros [= <- <-]. eexists. simpl. repeat split; auto.
  - intros [= <- <-]. eexists. simpl. repeat split; auto.
Qed.

Lemma getHomeNotDraggedOverMapProps_step a σ r σ' :
  getHomeNotDraggedOverMapProps a σ = (r, σ') ->
  exists o,
    r = Returned o
    /\ homeNotDraggedOverCache σ' = Some (a, o)
    /\ draggingOverCache σ' = draggingOverCache σ
    /\ (σ' = σ
        \/ (addr o = nextAddr σ /\ nextAddr σ' = S (nextAddr σ)
            /\ props o = homeNotDraggedOverProps a)).
Proof.
  destruct σ as [next over home].
  unfold getHomeNotDraggedOverMapProps, memoizeOne.
  cbn [nextAddr draggingOverCache homeNotDraggedOverCache].
  destruct home as [[lastArgs lastResult]|].
  - destruct (homeArgsEqual a lastArgs) eqn:Heq.
    + apply homeArgsEqual_true in Heq as ->. intros [= <- <-].
      exists lastResult. auto.
    + intros [= <- <-]. eexists. simpl. repeat split; auto.
  - intros [= <- <-]. eexists. simpl. repeat split; auto.
Qed.

(** A call leaves the instance as it was, or builds one object at the next
    free address, returns it and puts it in one slot. *)
Lemma selector_step s own σ r σ' :
  selector s own σ = (r, σ') ->
  σ' = σ
  \/ exists o,
       r = Returned o /\ addr o = nextAddr σ
       /\ nextAddr σ' = S (nextAddr σ)
       /\ ((exists a, draggingOverCache σ' = Some (a, o)
                      /\ homeNotDraggedOverCache σ'
                         = homeNotDraggedOverCache σ)
           \/ (exists a, homeNotDraggedOverCache σ' = Some (a, o)
                         /\ draggingOverCache σ' = draggingOverCache σ)).
Proof.
  intros [[-> _]|[[a H]|[a H]]]%selector_provenance; [by left|..].
  - apply getDraggingOverMapProps_step in H
      as (o & -> & Hover & Hhome & [->|(Ha & Hn & _)]); [by left|].
    right. exists o. repeat split; eauto.
  - apply getHomeNotDraggedOverMapProps_step in H
      as (o & -> & Hhome & Hover & [->|(Ha & Hn & _)]); [by left|].
    right. exists o. repeat split; eauto.
Qed.

Lemma selector_wellAllocated s own σ :
  wellAllocated σ -> wellAllocated (selector s own σ).2.
Proof.
  intros [Hσ Hd]. split; [by apply selector_coherent|].
  destruct (selector s own σ) as [r σ'] eqn:Hrun. simpl.
  destruct (selector_step s own σ r σ' Hrun)
    as [->|(o & _ & Ha & _ & [(a & Hover & Hhome)|(a & Hhome & Hover)])];
    [done|..]; unfold distinctSlots; rewrite Hover, Hhome.
  - destruct Hσ as (_ & _ & Hok).
    destruct (homeNotDraggedOverCache σ) as [[b h]|]; [|done].
    simpl in Hok. lia.
  - destruct Hσ as (_ & Hok & _).
    destruct (draggingOverCache σ) as [[b h]|]; [|done].
    simpl in Hok. lia.
Qed.

(** Every state a running selector reaches is well allocated. *)
Lemma reachable_wellAllocated σ : reachable σ -> wellAllocated σ.
Proof.
  induction 1 as [|σ s own _ IH].
  - split; [apply makeMapStateToProps_coherent|done].
  - by apply selector_wellAllocated.
Qed.

(** A returned object is one of the two constants or sits in one of the
    slots when the call is over. *)
Lemma selector_located s own σ o σ' :
  selector s own σ = (Returned o, σ') ->
  o = idle \/ o = idleWithoutAnimation
  \/ (exists a, draggingOverCache σ' = Some (a, o))
  \/ (exists a, homeNotDraggedOverCache σ' = Some (a, o)).
Proof.
  intros [[_ [?|[[= ->]|[= ->]]]]|[[a H]|[a H]]]%selector_provenance;
    [done|by left|by right; left|..].
  - apply getDraggingOverMapProps_step in H as (o' & [= ->] & Hover & _).
    right. right. left. eauto.
  - apply getHomeNotDraggedOverMapProps_step in H as (o' & [= ->] & Hhome & _).
    right. right. right. eauto.
Qed.

(** In a well-allocated instance the constants and the cached objects are
    told apart by their addresses. *)
Lemma located_addr_inj σ o1 o2 :
  wellAllocated σ ->
  (o1 = idle \/ o1 = idleWithoutAnimation
   \/ (exists a, draggingOverCache σ = Some (a, o1))
   \/ (exists a, homeNotDraggedOverCache σ = Some (a, o1))) ->
  (o2 = idle \/ o2 = idleWithoutAnimation
   \/ (exists a, draggingOverCache σ = Some (a, o2))
   \/ (exists a, homeNotDraggedOverCache σ = Some (a, o2))) ->
  addr o1 = addr o2 -> o1 = o2.
Proof.
  intros [(_ & Hover & Hhome) Hd]. unfold distinctSlots in Hd.
  intros [->|[->|[[a1 H1]|[a1 H1]]]] [->|[->|[[a2 H2]|[a2 H2]]]];
    try done;
    try (rewrite H1 in *); try (rewrite H2 in *);
    simpl in *; unfold firstFreeAddress in *;
    try (intros; lia); try congruence.
Qed.

Lemma getMapProps_defined_returns id dr i σ :
  exists o σ', getMapProps id (Some dr) i σ = (Returned o, σ').
Proof.
  unfold getMapProps, bind. simpl. destruct (strictEq _ id).
  - destruct (getDraggingOverMapProps _ σ) as [r σ'] eqn:H.
    apply getDraggingOverMapProps_step in H as (o & -> & _). eauto.
  - destruct (negb _); [by eexists _, _|].
    destruct (getHomeNotDraggedOverMapProps _ σ) as [r σ'] eqn:H.
    apply getHomeNotDraggedOverMapProps_step in H as (o & -> & _). eauto.
Qed.

(** A returned object is one of the two constants, or carries the fields
    [getMapProps] computes from the consulted critical reference and impact
    and the catalog entry of the critical draggable. *)
Lemma selector_returns_from s own σ o σ' :
  coherent σ ->
  selector s own σ = (Returned o, σ') ->
  o = idle \/ o = idleWithoutAnimation
  \/ exists c i dr,
       consulted s = Some (c, i)
       /\ isMatchingType (own_type own) c = true
       /\ getDraggable c (dimensions s) = Some dr
       /\ props o = mapPropsOf (own_droppableId own) dr i.
Proof.
  intros Hσ. destruct (consulted s) as [[c i]|] eqn:Hc.
  - rewrite (selector_consulted s own c i σ Hc).
    destruct (isMatchingType _ c) eqn:Hty; simpl.
    + intros (dr & Hdr & Hp)%getMapProps_returns; [|done].
      right. right. by exists c, i, dr.
    + intros [= <- <-]. by left.
  - destruct (selector_not_consulted s own σ Hc)
      as [_ [(_ & _ & ->)|(_ & o' & -> & Ho)]]; [done|].
    intros [= <- <-]. destruct Ho; auto.
Qed.

Lemma draggingOverProps_inj a b :
  draggingOverProps a = draggingOverProps b -> a = b.
Proof.
  destruct a as [[[w1 f1] p1] s1], b as [[[w2 f2] p2] s2]. simpl.
  by intros [= -> -> -> ->].
Qed.

Lemma homeNotDraggedOverProps_inj a b :
  homeNotDraggedOverProps a = homeNotDraggedOverProps b -> a = b.
Proof.
  destruct a as [f1 p1], b as [f2 p2]. simpl. by intros [= -> ->].
Qed.

Lemma draggingOverProps_fields a :
  isDraggingOver (draggingOverProps a) = true
  /\ mp_placeholder (draggingOverProps a) <> None.
Proof. by destruct a as [[[w f] p] s]. Qed.

Lemma homeNotDraggedOverProps_fields a :
  isDraggingOver (homeNotDraggedOverProps a) = false
  /\ mp_placeholder (homeNotDraggedOverProps a) <> None.
Proof. by destruct a as [f p]. Qed.

(** ** Errors *)

(** X1.  A call throws exactly in two situations: the state is tagged
    DROP_ANIMATING without the [isDragging] flag and has no completed
    record; or the region's type matches the consulted critical reference
    and the catalog has no entry for the critical draggable.  A call that
    throws leaves the caches as they were. *)
Theorem X1_throws_exactly_when s own σ :
  (forall e σ', selector s own σ = (Thrown e, σ') -> σ' = σ)
  /\ ((exists e σ', selector s own σ = (Thrown e, σ')) <->
      (isDragging s = false /\ phase s = "DROP_ANIMATING"
       /\ completed s = None)
      \/ (exists c i,
            consulted s = Some (c, i)
            /\ isMatchingType (own_type own) c = true
            /\ getDraggable c (dimensions s) = None)).
Proof.
  split.
  - intros e σ' [[-> _]|[[a H]|[a H]]]%selector_provenance; [done|..].
    + by apply getDraggingOverMapProps_step in H as (o & ? & _).
    + by apply getHomeNotDraggedOverMapProps_step in H as (o & ? & _).
  - destruct (consulted s) as [[c i]|] eqn:Hc.
    + rewrite (selector_consulted s own c i σ Hc).
      destruct (isMatchingType _ c) eqn:Hty; simpl.
      * destruct (getDraggable c (dimensions s)) as [dr|] eqn:Hdr.
        -- destruct (getMapProps_defined_returns (own_droppableId own) dr i σ)
             as (o & σ' & ->).
           split; [by intros (? & ? & ?)|].
           intros [(Hd & Hp & Hcd)|(c' & i' & [= <- <-] & _ & ?)]; [|congruence].
           unfold consulted in Hc. by rewrite Hd, Hp, Hcd in Hc.
        -- split; [|by eexists _, _]. intros _. right. by exists c, i.
      * split; [by intros (? & ? & ?)|].
        intros [(Hd & Hp & Hcd)|(c' & i' & [= <- <-] & ? & _)]; [|congruence].
        unfold consulted in Hc. by rewrite Hd, Hp, Hcd in Hc.
    + destruct (selector_not_consulted s own σ Hc)
        as [Hd [(Hp & Hcd & ->)|(Hp & o & -> & _)]].
      * split; [by left|by eexists _, _].
      * split; [by intros (? & ? & ?)|].
        by intros [(_ & ? & _)|(? & ? & ? & _)].
Qed.

(** ** After the drop *)

(** From a coherent instance [getMapProps] returns [idle] or an object
    built by the selector, never [idleWithoutAnimation]. *)
Lemma getMapProps_not_idleWithoutAnimation id d i σ σ' :
  coherent σ ->
  getMapProps id d i σ <> (Returned idleWithoutAnimation, σ').
Proof.
  intros Hσ [[_ [?|?]]|[[a H]|[a H]]]%getMapProps_provenance; try done.
  - destruct (getDraggingOverMapProps_coherent a σ Hσ)
      as (o & σ0 & H0 & _ & Hc & _ & (_ & Hok & _)).
    rewrite H in H0. injection H0 as <- <-. rewrite Hc in Hok.
    simpl in Hok. unfold firstFreeAddress in Hok. lia.
  - destruct (getHomeNotDraggedOverMapProps_coherent a σ Hσ)
      as (o & σ0 & H0 & _ & Hc & _ & (_ & _ & Hok)).
    rewrite H in H0. injection H0 as <- <-. rewrite Hc in Hok.
    simpl in Hok. unfold firstFreeAddress in Hok. lia.
Qed.

(** X2.  A call returns [idleWithoutAnimation] exactly when the state is
    IDLE without the [isDragging] flag and carries a completed record, the
    region's type matches that record's critical region type, the region is
    that critical region, and the collapse decision is false. *)
Theorem X2_idleWithoutAnimation_exactly_when s own σ :
  reachable σ ->
  ((exists σ', selector s own σ = (Returned idleWithoutAnimation, σ')) <->
   isDragging s = false /\ phase s = "IDLE"
   /\ exists cd,
        completed s = Some cd
        /\ isMatchingType (own_type own) (c_critical cd) = true
        /\ dp_id (droppable (c_critical cd)) = own_droppableId own
        /\ shouldCollapseHomeAfterDrag (own_droppableId own) cd = false).
Proof.
  intros Hσ%reachable_coherent. split.
  - intros [σ' Hrun]. destruct (consulted s) as [[c i]|] eqn:Hc.
    { rewrite (selector_consulted s own c i σ Hc) in Hrun.
      destruct (negb _); [done|].
      by apply getMapProps_not_idleWithoutAnimation in Hrun. }
    destruct (selector_not_consulted s own σ Hc)
      as [Hd [(_ & _ & Hthrow)|(Hdrop & _)]]; [congruence|].
    split; [done|].
    destruct (decide (phase s = "IDLE")) as [Hp|Hp];
      [destruct (completed s) as [cd|] eqn:Hcd|].
    + rewrite (selector_idle_completed s own cd σ) in Hrun by done.
      split; [done|]. exists cd. split; [done|].
      destruct (isMatchingType _ _); simpl in Hrun; [|done].
      case_bool_decide; simpl in Hrun; [|done].
      by destruct (shouldCollapseHomeAfterDrag _ _).
    + by rewrite (selector_other_phase s own σ Hd) in Hrun; [|done|right].
    + by rewrite (selector_other_phase s own σ Hd) in Hrun; [|done|left].
  - intros (Hd & Hp & cd & Hcd & Hty & Hhome & Hcollapse). exists σ.
    rewrite (selector_idle_completed s own cd σ) by done.
    by rewrite Hty, bool_decide_eq_true_2, Hcollapse.
Qed.

(** X3.  Without the [isDragging] flag a call never reads the live critical
    reference and impact, and outside the DROP_ANIMATING tag it does not
    read the catalog either: two such states with the same phase tag and
    completed record, and the same catalog if the tag is DROP_ANIMATING,
    get the same outcome and leave the same caches. *)
Theorem X3_settled_reads_completed_only s s' own σ :
  isDragging s = false -> isDragging s' = false ->
  phase s = phase s' ->
  completed s = completed s' ->
  (phase s = "DROP_ANIMATING" -> dimensions s = dimensions s') ->
  selector s own σ = selector s' own σ.
Proof.
  intros Hd Hd' Hp Hc Hdim. unfold selector.
  rewrite Hd, Hd', <- Hp, <- Hc. case_bool_decide as Hdrop; [|done].
  by rewrite (Hdim Hdrop).
Qed.

(** ** Allocation *)

(** X4.  A call either leaves the instance exactly as it was, or builds
    exactly one object: the object gets the next free address, is the one
    returned, and replaces the content of one slot while the other slot
    keeps what it had. *)
Theorem X4_one_allocation_per_call s own σ r σ' :
  selector s own σ = (r, σ') ->
  σ' = σ
  \/ exists o,
       r = Returned o /\ addr o = nextAddr σ
       /\ nextAddr σ' = S (nextAddr σ)
       /\ ((exists a, draggingOverCache σ' = Some (a, o)
                      /\ homeNotDraggedOverCache σ'
                         = homeNotDraggedOverCache σ)
           \/ (exists a, homeNotDraggedOverCache σ' = Some (a, o)
                         /\ draggingOverCache σ' = draggingOverCache σ)).
Proof. apply selector_step. Qed.

(** X5.  A call that throws, or returns one of the two constants, leaves
    both caches untouched: a region the drag does not concern never evicts
    a memoized record. *)
Theorem X5_constants_keep_caches s own σ r σ' :
  reachable σ ->
  selector s own σ = (r, σ') ->
  (exists e, r = Thrown e) \/ r = Returned idle
  \/ r = Returned idleWithoutAnimation ->
  σ' = σ.
Proof.
  intros (Hnext & _)%reachable_coherent Hrun Hr.
  destruct (selector_step s own σ r σ' Hrun)
    as [->|(o & -> & Ha & _)]; [done|].
  unfold firstFreeAddress in Hnext.
  destruct Hr as [[e [=]]|[[= ->]|[= ->]]]; simpl in Ha; lia.
Qed.

(** ** Reference equality of successive results *)

(** A returned object's fields decide where it came from. *)
Lemma located_props_inj σ o1 s own o2 σ2 :
  wellAllocated σ ->
  (o1 = idle \/ o1 = idleWithoutAnimation
   \/ (exists a, draggingOverCache σ = Some (a, o1))
   \/ (exists a, homeNotDraggedOverCache σ = Some (a, o1))) ->
  selector s own σ = (Returned o2, σ2) ->
  props o1 = props o2 -> o1 = o2.
Proof.
  intros [Hσ _] Ho1 Hrun Hp.
  pose proof Hσ as (_ & Hover & Hhome).
  apply selector_provenance in Hrun
    as [(_ & [?|[[= ->]|[= ->]]])|[[b H]|[b H]]]; [done|..].
  - destruct Ho1 as [->|[->|[[a H1]|[a H1]]]]; [done|done|..].
    + rewrite H1 in Hover. destruct Hover as [Hpa _]. rewrite Hpa in Hp.
      by destruct a as [[[? ?] ?] ?].
    + rewrite H1 in Hhome. destruct Hhome as [Hpa _]. rewrite Hpa in Hp.
      by destruct a as [? ?].
  - destruct Ho1 as [->|[->|[[a H1]|[a H1]]]]; [done|done|..].
    + rewrite H1 in Hover. destruct Hover as [Hpa _]. rewrite Hpa in Hp.
      by destruct a as [[[? ?] ?] ?].
    + rewrite H1 in Hhome. destruct Hhome as [Hpa _]. rewrite Hpa in Hp.
      by destruct a as [? ?].
  - destruct (getDraggingOverMapProps_coherent b σ Hσ)
      as (o & σ0 & H0 & Hpb & _).
    rewrite H in H0. injection H0 as <- <-. rewrite Hpb in Hp.
    destruct Ho1 as [->|[->|[[a H1]|[a H1]]]].
    + by destruct b as [[[? ?] ?] ?].
    + by destruct b as [[[? ?] ?] ?].
    + rewrite H1 in Hover. destruct Hover as [Hpa _]. rewrite Hpa in Hp.
      apply draggingOverProps_inj in Hp as ->.
      rewrite (getDraggingOverMapProps_hit b o1 σ H1) in H. congruence.
    + rewrite H1 in Hhome. destruct Hhome as [Hpa _]. rewrite Hpa in Hp.
      by destruct a as [? ?], b as [[[? ?] ?] ?].
  - destruct (getHomeNotDraggedOverMapProps_coherent b σ Hσ)
      as (o & σ0 & H0 & Hpb & _).
    rewrite H in H0. injection H0 as <- <-. rewrite Hpb in Hp.
    destruct Ho1 as [->|[->|[[a H1]|[a H1]]]].
    + by destruct b as [? ?].
    + by destruct b as [? ?].
    + rewrite H1 in Hover. destruct Hover as [Hpa _]. rewrite Hpa in Hp.
      by destruct a as [[[? ?] ?] ?], b as [? ?].
    + rewrite H1 in Hhome. destruct Hhome as [Hpa _]. rewrite Hpa in Hp.
      apply homeNotDraggedOverProps_inj in Hp as ->.
      rewrite (getHomeNotDraggedOverMapProps_hit b o1 σ H1) in H. congruence.
Qed.

(** X6.  For two successive calls of one selector, with any states and own
    props, the two returned objects are the same reference if and only if
    they have the same fields: comparing results with [===] loses nothing
    against comparing them field by field, and never sees a change where
    the fields are the same. *)
Theorem X6_strict_equality_is_field_equality σ s1 own1 o1 σ1 s2 own2 o2 σ2 :
  reachable σ ->
  selector s1 own1 σ = (Returned o1, σ1) ->
  selector s2 own2 σ1 = (Returned o2, σ2) ->
  (addr o1 = addr o2 <-> props o1 = props o2)
  /\ (addr o1 = addr o2 <-> o1 = o2).
Proof.
  intros Hσ Hrun1 Hrun2.
  assert (wellAllocated σ1) as Hσ1.
  { change σ1 with (Returned o1, σ1).2. rewrite <- Hrun1.
    by apply selector_wellAllocated, reachable_wellAllocated. }
  pose proof (selector_located s1 own1 σ o1 σ1 Hrun1) as Ho1.
  assert (addr o1 = addr o2 -> o1 = o2) as Haddr.
  { intros Ha.
    destruct (selector_step s2 own2 σ1 _ σ2 Hrun2)
      as [->|(o & [= <-] & Hfresh & _)].
    - apply (located_addr_inj σ1); try done.
      by apply (selector_located s2 own2 σ1).
    - exfalso. destruct Hσ1 as [(Hnext & Hover & Hhome) _].
      unfold firstFreeAddress in *.
      destruct Ho1 as [->|[->|[[a H1]|[a H1]]]]; simpl in *; try lia.
      + rewrite H1 in Hover. simpl in Hover. lia.
      + rewrite H1 in Hhome. simpl in Hhome. lia. }
  assert (props o1 = props o2 -> o1 = o2) as Hprops
    by apply (located_props_inj σ1 o1 s2 own2 o2 σ2 Hσ1 Ho1 Hrun2).
  split; split; try done.
  - by intros ->%Haddr.
  - by intros ->%Hprops.
  - by intros ->.
Qed.

(** ** Stability and eviction *)

(** X7.  Take two states that each supply a critical reference and an
    impact to the selector (the live ones under the [isDragging] flag, those
    of the completed record under the DROP_ANIMATING tag), both of the
    region's type, for which [getDraggable] finds the same catalog entry.
    When the region is the resolved target in both or in neither, a call
    with the second state right after a call with the first returns the
    very same outcome, the same object, and leaves the caches as the first
    call left them, even when the two states differ in their phase tag or
    in the rest of their impact. *)
Theorem X7_same_entry_same_object σ own s1 c1 i1 s2 c2 i2 dr r σ1 :
  consulted s1 = Some (c1, i1) ->
  consulted s2 = Some (c2, i2) ->
  isMatchingType (own_type own) c1 = true ->
  isMatchingType (own_type own) c2 = true ->
  getDraggable c1 (dimensions s1) = Some dr ->
  getDraggable c2 (dimensions s2) = Some dr ->
  (whatIsDraggedOver i1 = Some (own_droppableId own)
   <-> whatIsDraggedOver i2 = Some (own_droppableId own)) ->
  selector s1 own σ = (r, σ1) ->
  selector s2 own σ1 = (r, σ1).
Proof.
  intros Hc1 Hc2 Hty1 Hty2 Hdr1 Hdr2 Hover.
  rewrite (selector_consulted s1 own c1 i1 σ Hc1), Hty1, Hdr1.
  rewrite (selector_consulted s2 own c2 i2 σ1 Hc2), Hty2, Hdr2. simpl.
  intros Hrun%getMapProps_again.
  assert (strictEq (whatIsDraggedOver i2) (own_droppableId own)
          = strictEq (whatIsDraggedOver i1) (own_droppableId own)) as Heq.
  { unfold strictEq. apply bool_decide_ext. by symmetry. }
  unfold getMapProps in *. by rewrite Heq.
Qed.

(** X8.  Each constructor remembers its last call only.  When the region
    is the target in a first state, then in a second state whose catalog
    entry has another placeholder object, then in the first state again,
    the third call does not return the first call's object: it builds a new
    one, at a later address, with the same fields. *)
Theorem X8_single_slot_eviction σ own s1 c1 i1 dr1 s2 c2 i2 dr2 o1 σ1 o2 σ2 o3 σ3
  :
  reachable σ ->
  consulted s1 = Some (c1, i1) ->
  consulted s2 = Some (c2, i2) ->
  isMatchingType (own_type own) c1 = true ->
  isMatchingType (own_type own) c2 = true ->
  getDraggable c1 (dimensions s1) = Some dr1 ->
  getDraggable c2 (dimensions s2) = Some dr2 ->
  whatIsDraggedOver i1 = Some (own_droppableId own) ->
  whatIsDraggedOver i2 = Some (own_droppableId own) ->
  placeholder dr1 <> placeholder dr2 ->
  selector s1 own σ = (Returned o1, σ1) ->
  selector s2 own σ1 = (Returned o2, σ2) ->
  selector s1 own σ2 = (Returned o3, σ3) ->
  addr o1 < addr o2 /\ addr o2 < addr o3 /\ props o3 = props o1.
Proof.
  intros Hσ%reachable_coherent Hc1 Hc2 Hty1 Hty2 Hdr1 Hdr2 Hov1 Hov2 Hne.
  rewrite (selector_consulted s1 own c1 i1 σ Hc1), Hty1, Hdr1.
  rewrite (selector_consulted s2 own c2 i2 σ1 Hc2), Hty2, Hdr2.
  rewrite (selector_consulted s1 own c1 i1 σ2 Hc1), Hty1, Hdr1. simpl.
  rewrite !getMapProps_over by done.
  set (a1 := (dg_id (descriptor dr1), _, placeholder dr1, _)).
  set (a2 := (dg_id (descriptor dr2), _, placeholder dr2, _)).
  assert (a2 <> a1) as Ha by (intros [=]; congruence).
  intros Hrun1 Hrun2 Hrun3.
  destruct (getDraggingOverMapProps_coherent a1 σ Hσ)
    as (o & σ' & H & Hp1 & Hslot1 & _ & Hσ1).
  rewrite Hrun1 in H. injection H as <- <-.
  pose proof Hσ1 as (_ & Hok1 & _). rewrite Hslot1 in Hok1.
  destruct Hok1 as [_ Hlt1].
  unfold getDraggingOverMapProps in Hrun2. rewrite Hslot1 in Hrun2.
  rewrite (memoizeOne_miss _ _ overArgsEqual_true) in Hrun2 by done.
  injection Hrun2 as <- <-.
  unfold getDraggingOverMapProps in Hrun3.
  cbn [nextAddr draggingOverCache homeNotDraggedOverCache] in Hrun3.
  rewrite (memoizeOne_miss _ _ overArgsEqual_true) in Hrun3 by done.
  injection Hrun3 as <- <-. simpl. split; [lia|]. split; [lia|done].
Qed.

(** ** What the returned records say *)

Lemma mapPropsOf_over_target id dr i :
  isDraggingOver (mapPropsOf id dr i) = true ->
  whatIsDraggedOver i = Some id.
Proof.
  unfold mapPropsOf. destruct (strictEq _ id) eqn:Hover.
  - intros _. by apply strictEq_true.
  - by destruct (negb _).
Qed.

Lemma mapPropsOf_from_origin id dr i :
  draggingFromThisWith (mapPropsOf id dr i) <> None ->
  dg_droppableId (descriptor dr) = id.
Proof.
  unfold mapPropsOf. destruct (strictEq _ id); simpl.
  - by case_bool_decide.
  - by case_bool_decide.
Qed.

Lemma mapPropsOf_over_iff id dr i :
  isDraggingOver (mapPropsOf id dr i) = true
  <-> whatIsDraggedOver i = Some id.
Proof.
  split; [apply mapPropsOf_over_target|].
  intros Hover%strictEq_true. unfold mapPropsOf. by rewrite Hover.
Qed.

Lemma mapPropsOf_from_iff id dr i :
  draggingFromThisWith (mapPropsOf id dr i) <> None
  <-> dg_droppableId (descriptor dr) = id.
Proof.
  split; [apply mapPropsOf_from_origin|].
  intros Hhome. unfold mapPropsOf.
  rewrite bool_decide_eq_true_2 by done. by destruct (strictEq _ _).
Qed.

(** X9.  For one state and two regions with different ids, each with a
    selector of its own: at most one of the two records says
    [isDraggingOver], and at most one has a [draggingFromThisWith]. *)
Theorem X9_one_target_one_origin s own1 σ1 o1 σ1' own2 σ2 o2 σ2' :
  reachable σ1 -> reachable σ2 ->
  own_droppableId own1 <> own_droppableId own2 ->
  selector s own1 σ1 = (Returned o1, σ1') ->
  selector s own2 σ2 = (Returned o2, σ2') ->
  ~ (isDraggingOver (props o1) = true /\ isDraggingOver (props o2) = true)
  /\ ~ (draggingFromThisWith (props o1) <> None
        /\ draggingFromThisWith (props o2) <> None).
Proof.
  intros Hσ1%reachable_coherent Hσ2%reachable_coherent Hne Hrun1 Hrun2.
  destruct (selector_returns_from s own1 σ1 o1 σ1' Hσ1 Hrun1)
    as [->|[->|(c1 & i1 & dr1 & Hc1 & _ & Hdr1 & Hp1)]];
    [by split; intros [? ?]..|].
  destruct (selector_returns_from s own2 σ2 o2 σ2' Hσ2 Hrun2)
    as [->|[->|(c2 & i2 & dr2 & Hc2 & _ & Hdr2 & Hp2)]];
    [by split; intros [? ?]..|].
  rewrite Hc1 in Hc2. injection Hc2 as <- <-.
  rewrite Hdr1 in Hdr2. injection Hdr2 as <-.
  rewrite Hp1, Hp2. split.
  - intros [H1%mapPropsOf_over_target H2%mapPropsOf_over_target]. congruence.
  - intros [H1%mapPropsOf_from_origin H2%mapPropsOf_from_origin]. congruence.
Qed.

(** X10.  In every record a call returns: a [draggingFromThisWith] comes
    with a placeholder and with [shouldAnimatePlaceholder = false]; when
    both [draggingOverWith] and [draggingFromThisWith] are set they name
    the same draggable; and a record that says [isDraggingOver] animates
    its placeholder exactly when it has no [draggingFromThisWith]. *)
Theorem X10_record_invariants s own σ o σ' :
  reachable σ ->
  selector s own σ = (Returned o, σ') ->
  (draggingFromThisWith (props o) <> None ->
   mp_placeholder (props o) <> None
   /\ shouldAnimatePlaceholder (props o) = false)
  /\ (forall a b,
        draggingOverWith (props o) = Some a ->
        draggingFromThisWith (props o) = Some b -> a = b)
  /\ (isDraggingOver (props o) = true ->
      (shouldAnimatePlaceholder (props o) = true
       <-> draggingFromThisWith (props o) = None)).
Proof.
  intros Hσ%reachable_coherent Hrun.
  destruct (selector_returns_from s own σ o σ' Hσ Hrun)
    as [->|[->|(c & i & dr & _ & _ & _ & ->)]];
    [by repeat split..|].
  unfold mapPropsOf. destruct (strictEq _ _); simpl.
  - case_bool_decide; simpl; repeat split; try done; congruence.
  - case_bool_decide; simpl; by repeat split.
Qed.

(** X11.  A call never makes up a placeholder: the placeholder of a
    returned record, when there is one, is the placeholder object the
    catalog holds for the consulted critical draggable. *)
Theorem X11_placeholder_from_catalog s own σ o σ' p :
  reachable σ ->
  selector s own σ = (Returned o, σ') ->
  mp_placeholder (props o) = Some p ->
  exists c i dr,
    consulted s = Some (c, i)
    /\ getDraggable c (dimensions s) = Some dr
    /\ p = placeholder dr.
Proof.
  intros Hσ%reachable_coherent Hrun.
  destruct (selector_returns_from s own σ o σ' Hσ Hrun)
    as [->|[->|(c & i & dr & Hc & _ & Hdr & ->)]]; [done..|].
  intros Hp. exists c, i, dr. split; [done|]. split; [done|].
  unfold mapPropsOf in Hp. destruct (strictEq _ _); simpl in Hp.
  - congruence.
  - destruct (negb _); simpl in Hp; congruence.
Qed.

(** X12.  With a catalog that stores every entry under the id of its
    descriptor, the draggable a returned record names, as
    [draggingOverWith] or as [draggingFromThisWith], is the draggable of
    the consulted critical reference. *)
Theorem X12_names_the_critical_draggable s own σ o σ' d :
  reachable σ ->
  keyedById (dimensions s) ->
  selector s own σ = (Returned o, σ') ->
  draggingOverWith (props o) = Some d
  \/ draggingFromThisWith (props o) = Some d ->
  exists c i, consulted s = Some (c, i) /\ d = dg_id (draggable c).
Proof.
  intros Hσ%reachable_coherent Hkeyed Hrun.
  destruct (selector_returns_from s own σ o σ' Hσ Hrun)
    as [->|[->|(c & i & dr & Hc & _ & Hdr & ->)]];
    [by intros [?|?]..|].
  intros Hd. exists c, i. split; [done|].
  rewrite <- (Hkeyed _ _ Hdr).
  unfold mapPropsOf in Hd. destruct (strictEq _ _); simpl in Hd.
  - destruct Hd as [Hd|Hd]; [congruence|].
    destruct (bool_decide _); congruence.
  - destruct (negb _); simpl in Hd; destruct Hd; congruence.
Qed.

(** X13.  A returned record says [isDraggingOver] exactly when the call
    consults a critical reference of the region's type, the catalog has the
    critical draggable, and the resolved target of the consulted impact is
    the region; it has a [draggingFromThisWith] exactly when, in the same
    situation, the entry's origin region is the region, hovered or not. *)
Theorem X13_flags_exactly_when s own σ o σ' :
  reachable σ ->
  selector s own σ = (Returned o, σ') ->
  (isDraggingOver (props o) = true <->
   exists c i dr,
     consulted s = Some (c, i)
     /\ isMatchingType (own_type own) c = true
     /\ getDraggable c (dimensions s) = Some dr
     /\ whatIsDraggedOver i = Some (own_droppableId own))
  /\ (draggingFromThisWith (props o) <> None <->
      exists c i dr,
        consulted s = Some (c, i)
        /\ isMatchingType (own_type own) c = true
        /\ getDraggable c (dimensions s) = Some dr
        /\ dg_droppableId (descriptor dr) = own_droppableId own).
Proof.
  intros Hσ%reachable_coherent Hrun.
  destruct (consulted s) as [[c i]|] eqn:Hc.
  - rewrite (selector_consulted s own c i σ Hc) in Hrun.
    destruct (isMatchingType _ c) eqn:Hty; simpl in Hrun.
    + destruct (getDraggable c (dimensions s)) as [dr|] eqn:Hdr; [|done].
      destruct (getMapProps_coherent (own_droppableId own) dr i σ Hσ)
        as (o0 & σ0 & Hrun0 & Hp & _).
      rewrite Hrun0 in Hrun. injection Hrun as <- <-. rewrite Hp. split.
      * rewrite mapPropsOf_over_iff. split; [by exists c, i, dr|].
        by intros (c' & i' & dr' & [= <- <-] & _ & _ & ?).
      * rewrite mapPropsOf_from_iff. split; [by exists c, i, dr|].
        intros (c' & i' & dr' & [= <- <-] & _ & Hdr' & ?). congruence.
    + injection Hrun as <- <-.
      split; (split; [done|]);
        intros (c' & i' & dr' & [= <- <-] & ? & _); congruence.
  - destruct (selector_not_consulted s own σ Hc)
      as [_ [(_ & _ & Hthrow)|(_ & o' & Hret & Ho)]]; [congruence|].
    rewrite Hret in Hrun. injection Hrun as <- <-.
    destruct Ho as [-> | ->];
      (split; (split; [done|]); by intros (? & ? & ? & ? & _)).
Qed.

(** * The further properties at the sample sessions *)

(** X2 at the origin region "A" once a drag that ended over "A" without a
    merge has settled. *)
Lemma X2_witness :
  exists σ',
    selector (Sample.idleAfter (Sample.over "A")) Sample.regionA
      makeMapStateToProps
    = (Returned idleWithoutAnimation, σ').
Proof.
  apply (proj2 (X2_idleWithoutAnimation_exactly_when
                  (Sample.idleAfter (Sample.over "A")) Sample.regionA
                  makeMapStateToProps reachable_fresh)).
  split; [reflexivity|]. split; [reflexivity|].
  exists {| c_critical := Sample.criticalA; c_impact := Sample.over "A" |}.
  repeat split; vm_compute; reflexivity.
Defined.

(** X3 at two IDLE states with the same completed record and different
    live critical reference, impact and catalog. *)
Lemma X3_witness :
  selector (Sample.idleAfter (Sample.over "A")) Sample.regionA
    makeMapStateToProps
  = selector
      {| phase := "IDLE"; isDragging := false;
         critical := Sample.criticalA; dimensions := Sample.catalog 11;
         impact := Sample.over "B";
         completed := Some {| c_critical := Sample.criticalA;
                              c_impact := Sample.over "A" |} |}
      Sample.regionA makeMapStateToProps.
Proof.
  apply X3_settled_reads_completed_only; try reflexivity.
  simpl. discriminate.
Defined.

(** X4 at the first call of a fresh selector for region "A", hovered by
    its own item: one object, at address 2, in the dragging-over slot. *)
Lemma X4_witness :
  let run :=
    selector (Sample.dragging Sample.criticalA 10 (Sample.over "A"))
      Sample.regionA makeMapStateToProps in
  run.2 = makeMapStateToProps
  \/ exists o,
       run.1 = Returned o /\ addr o = 2 /\ nextAddr run.2 = 3
       /\ ((exists a, draggingOverCache run.2 = Some (a, o)
                      /\ homeNotDraggedOverCache run.2 = None)
           \/ (exists a, homeNotDraggedOverCache run.2 = Some (a, o)
                         /\ draggingOverCache run.2 = None)).
Proof.
  intros run.
  apply (X4_one_allocation_per_call
           (Sample.dragging Sample.criticalA 10 (Sample.over "A"))
           Sample.regionA makeMapStateToProps run.1 run.2).
  vm_compute; reflexivity.
Defined.

(** X5 at region "B": after the drag hovered over "B" it moves over "A",
    "B" gets the idle constant and keeps its cached record. *)
Lemma X5_witness :
  let σ :=
    (selector (Sample.dragging Sample.criticalA 10 (Sample.over "B"))
       Sample.regionB makeMapStateToProps).2 in
  draggingOverCache σ <> None
  /\ (selector (Sample.dragging Sample.criticalA 10 (Sample.over "A"))
        Sample.regionB σ).2 = σ.
Proof.
  intros σ. split; [vm_compute; discriminate|].
  apply (X5_constants_keep_caches
           (Sample.dragging Sample.criticalA 10 (Sample.over "A"))
           Sample.regionB σ (Returned idle)).
  - apply reachable_call, reachable_fresh.
  - vm_compute; reflexivity.
  - right. left. reflexivity.
Defined.

(** X6 at the calls for DRAGGING and then DROP_ANIMATING over the origin
    region "A". *)
Lemma X6_witness :
  let run1 :=
    selector (Sample.dragging Sample.criticalA 10 (Sample.over "A"))
      Sample.regionA makeMapStateToProps in
  let run2 :=
    selector (Sample.dropAnimating 10 (Sample.over "A"))
      Sample.regionA run1.2 in
  exists o1 o2,
    run1.1 = Returned o1 /\ run2.1 = Returned o2
    /\ (addr o1 = addr o2 <-> props o1 = props o2)
    /\ (addr o1 = addr o2 <-> o1 = o2).
Proof.
  intros run1 run2.
  exists {| addr := 2;
            props := draggingOverProps
                       ("item-1", Some "item-1", 10, false) |}.
  exists {| addr := 2;
            props := draggingOverProps
                       ("item-1", Some "item-1", 10, false) |}.
  split; [vm_compute; reflexivity|]. split; [vm_compute; reflexivity|].
  apply (X6_strict_equality_is_field_equality makeMapStateToProps
           (Sample.dragging Sample.criticalA 10 (Sample.over "A"))
           Sample.regionA _ run1.2
           (Sample.dropAnimating 10 (Sample.over "A"))
           Sample.regionA _ run2.2).
  - apply reachable_fresh.
  - vm_compute; reflexivity.
  - vm_compute; reflexivity.
Defined.

(** X7 at the step from DRAGGING to DROP_ANIMATING over the origin region
    "A": the same object, the same caches. *)
Lemma X7_witness :
  let run :=
    selector (Sample.dragging Sample.criticalA 10 (Sample.over "A"))
      Sample.regionA makeMapStateToProps in
  selector (Sample.dropAnimating 10 (Sample.over "A")) Sample.regionA run.2
  = (run.1, run.2).
Proof.
  intros run.
  apply (X7_same_entry_same_object makeMapStateToProps Sample.regionA
           (Sample.dragging Sample.criticalA 10 (Sample.over "A"))
           Sample.criticalA (Sample.over "A")
           (Sample.dropAnimating 10 (Sample.over "A"))
           Sample.criticalA (Sample.over "A")
           {| descriptor := Sample.item1; placeholder := 10 |}).
  - reflexivity.
  - reflexivity.
  - vm_compute; reflexivity.
  - vm_compute; reflexivity.
  - vm_compute; reflexivity.
  - vm_compute; reflexivity.
  - reflexivity.
  - vm_compute; reflexivity.
Defined.

(** X8 at region "A", hovered by its own item, when the catalog is
    published with the placeholder object 10, then 11, then 10 again. *)
Lemma X8_witness :
  let s1 := Sample.dragging Sample.criticalA 10 (Sample.over "A") in
  let s2 := Sample.dragging Sample.criticalA 11 (Sample.over "A") in
  let run1 := selector s1 Sample.regionA makeMapStateToProps in
  let run2 := selector s2 Sample.regionA run1.2 in
  let run3 := selector s1 Sample.regionA run2.2 in
  exists o1 o2 o3,
    run1.1 = Returned o1 /\ run2.1 = Returned o2 /\ run3.1 = Returned o3
    /\ addr o1 < addr o2 /\ addr o2 < addr o3 /\ props o3 = props o1.
Proof.
  intros s1 s2 run1 run2 run3.
  exists {| addr := 2;
            props := draggingOverProps
                       ("item-1", Some "item-1", 10, false) |}.
  exists {| addr := 3;
            props := draggingOverProps
                       ("item-1", Some "item-1", 11, false) |}.
  exists {| addr := 4;
            props := draggingOverProps
                       ("item-1", Some "item-1", 10, false) |}.
  split; [vm_compute; reflexivity|]. split; [vm_compute; reflexivity|].
  split; [vm_compute; reflexivity|].
  apply (X8_single_slot_eviction makeMapStateToProps Sample.regionA
           s1 Sample.criticalA (Sample.over "A")
           {| descriptor := Sample.item1; placeholder := 10 |}
           s2 Sample.criticalA (Sample.over "A")
           {| descriptor := Sample.item1; placeholder := 11 |}
           _ run1.2 _ run2.2 _ run3.2).
  - apply reachable_fresh.
  - reflexivity.
  - reflexivity.
  - vm_compute; reflexivity.
  - vm_compute; reflexivity.
  - vm_compute; reflexivity.
  - vm_compute; reflexivity.
  - reflexivity.
  - reflexivity.
  - simpl. lia.
  - vm_compute; reflexivity.
  - vm_compute; reflexivity.
  - vm_compute; reflexivity.
Defined.

(** X9 at a drag from region "A" that hovers over region "B": "B" alone
    says [isDraggingOver], "A" alone has a [draggingFromThisWith]. *)
Lemma X9_witness :
  let s := Sample.dragging Sample.criticalA 10 (Sample.over "B") in
  let oA := {| addr := 2;
               props := homeNotDraggedOverProps ("item-1", 10) |} in
  let oB := {| addr := 2;
               props := draggingOverProps ("item-1", None, 10, true) |} in
  (selector s Sample.regionA makeMapStateToProps).1 = Returned oA
  /\ (selector s Sample.regionB makeMapStateToProps).1 = Returned oB
  /\ ~ (isDraggingOver (props oA) = true /\ isDraggingOver (props oB) = true)
  /\ ~ (draggingFromThisWith (props oA) <> None
        /\ draggingFromThisWith (props oB) <> None).
Proof.
  intros s oA oB.
  split; [vm_compute; reflexivity|]. split; [vm_compute; reflexivity|].
  apply (X9_one_target_one_origin s
           Sample.regionA makeMapStateToProps oA
           (selector s Sample.regionA makeMapStateToProps).2
           Sample.regionB makeMapStateToProps oB
           (selector s Sample.regionB makeMapStateToProps).2).
  - apply reachable_fresh.
  - apply reachable_fresh.
  - simpl. discriminate.
  - vm_compute; reflexivity.
  - vm_compute; reflexivity.
Defined.

(** X10 at the record of the origin region "A" hovered by its own item. *)
Lemma X10_witness :
  let s := Sample.dragging Sample.criticalA 10 (Sample.over "A") in
  let o := {| addr := 2;
              props := draggingOverProps
                         ("item-1", Some "item-1", 10, false) |} in
  (selector s Sample.regionA makeMapStateToProps).1 = Returned o
  /\ (draggingFromThisWith (props o) <> None ->
      mp_placeholder (props o) <> None
      /\ shouldAnimatePlaceholder (props o) = false)
  /\ (forall a b,
        draggingOverWith (props o) = Some a ->
        draggingFromThisWith (props o) = Some b -> a = b)
  /\ (isDraggingOver (props o) = true ->
      (shouldAnimatePlaceholder (props o) = true
       <-> draggingFromThisWith (props o) = None)).
Proof.
  intros s o. split; [vm_compute; reflexivity|].
  apply (X10_record_invariants s Sample.regionA makeMapStateToProps o
           (selector s Sample.regionA makeMapStateToProps).2).
  - apply reachable_fresh.
  - vm_compute; reflexivity.
Defined.

(** X11 at the same record: its placeholder is object 10 of the catalog. *)
Lemma X11_witness :
  let s := Sample.dragging Sample.criticalA 10 (Sample.over "A") in
  exists c i dr,
    consulted s = Some (c, i)
    /\ getDraggable c (dimensions s) = Some dr
    /\ 10 = placeholder dr.
Proof.
  intros s.
  apply (X11_placeholder_from_catalog s Sample.regionA makeMapStateToProps
           {| addr := 2;
              props := draggingOverProps
                         ("item-1", Some "item-1", 10, false) |}
           (selector s Sample.regionA makeMapStateToProps).2).
  - apply reachable_fresh.
  - vm_compute; reflexivity.
  - reflexivity.
Defined.

(** X12 at the same record: it names "item-1", the critical draggable. *)
Lemma X12_witness :
  let s := Sample.dragging Sample.criticalA 10 (Sample.over "A") in
  exists c i, consulted s = Some (c, i) /\ "item-1" = dg_id (draggable c).
Proof.
  intros s.
  apply (X12_names_the_critical_draggable s Sample.regionA
           makeMapStateToProps
           {| addr := 2;
              props := draggingOverProps
                         ("item-1", Some "item-1", 10, false) |}
           (selector s Sample.regionA makeMapStateToProps).2).
  - apply reachable_fresh.
  - intros k dr. simpl. rewrite lookup_singleton_Some. by intros [<- <-].
  - vm_compute; reflexivity.
  - left. reflexivity.
Defined.

(** X13 at region "B" hovered by the item of region "A": the record says
    [isDraggingOver] and has no [draggingFromThisWith]. *)
Lemma X13_witness :
  let s := Sample.dragging Sample.criticalA 10 (Sample.over "B") in
  let own := Sample.regionB in
  let o := {| addr := 2;
              props := draggingOverProps ("item-1", None, 10, true) |} in
  (selector s own makeMapStateToProps).1 = Returned o
  /\ (isDraggingOver (props o) = true <->
      exists c i dr,
        consulted s = Some (c, i)
        /\ isMatchingType (own_type own) c = true
        /\ getDraggable c (dimensions s) = Some dr
        /\ whatIsDraggedOver i = Some (own_droppableId own))
  /\ (draggingFromThisWith (props o) <> None <->
      exists c i dr,
        consulted s = Some (c, i)
        /\ isMatchingType (own_type own) c = true
        /\ getDraggable c (dimensions s) = Some dr
        /\ dg_droppableId (descriptor dr) = own_droppableId own).
Proof.
  intros s own o. split; [vm_compute; reflexivity|].
  apply (X13_flags_exactly_when s own makeMapStateToProps o
           (selector s own makeMapStateToProps).2).
  - apply reachable_fresh.
  - vm_compute; reflexivity.
Defined.
